(** * dcache-exporter: the extraction engine of [src/dcache_exporter.py]

    A shallow embedding of the exporter's collection pass: the transform
    table, the category filter, the recursive tree walker with its label
    lists, the metric registry and the collection orchestrator.

    Conventions of the embedding.
    - Python [str] is [string]; the functions used on it ([find],
      [replace], [strip], [endswith], slices) are written out below.
      Characters outside ASCII are carried along unchanged; only ASCII
      white space and ASCII digits are recognised by [strip], [int] and
      [float].
    - A value that may be [None] is an [option].
    - Python exceptions are the constructors of [exn]; code that may raise
      lives in the monad [M] (state and error).
    - Python [float] is IEEE binary64, i.e. the primitive [float].
    - The label lists handed around by the walker are mutable Python
      lists: they live in a store of lists addressed by locations, and
      [copy.copy] allocates. *)

From Stdlib Require Import ZArith String Ascii List Floats.
From stdpp Require Import base option list gmap strings sorting.

Local Open Scope Z_scope.
Local Open Scope string_scope.
Local Open Scope list_scope.

(** ** Exceptions and results *)

Inductive exn : Type :=
| ConnectionRefusedError
| AttributeError
| TypeError
| ValueError
| OverflowError
| OtherError (what : string).

Inductive result (A : Type) : Type :=
| Ok (a : A)
| Raise (e : exn).
Arguments Ok {A} a.
Arguments Raise {A} e.

Definition rbind {A B} (r : result A) (k : A -> result B) : result B :=
  match r with
  | Ok a => k a
  | Raise e => Raise e
  end.

(** ** Python string operations *)

Module Str.

Definition LF : ascii := ascii_of_nat 10.

(** [c in s] for a one-character [c]. *)
Fixpoint contains (c : ascii) (s : string) : bool :=
  match s with
  | EmptyString => false
  | String a s' => if Ascii.eqb a c then true else contains c s'
  end.

(** [s[:s.find(c)]] when [c] occurs in [s]: the part before the first
    occurrence. Without an occurrence this is all of [s]. *)
Fixpoint before_first (c : ascii) (s : string) : string :=
  match s with
  | EmptyString => EmptyString
  | String a s' => if Ascii.eqb a c then EmptyString
                   else String a (before_first c s')
  end.

(** Splits [s] after the last occurrence of [c]: the first component
    ends with that [c]. The greedy [.*\}] of the two tag patterns. *)
Fixpoint split_last (c : ascii) (s : string) : option (string * string) :=
  match s with
  | EmptyString => None
  | String a s' =>
      match split_last c s' with
      | Some (pre, post) => Some (String a pre, post)
      | None => if Ascii.eqb a c then Some (String a EmptyString, s')
                else None
      end
  end.

(** [s.replace(a, b)] for one-character [a] and [b]. *)
Fixpoint replace (a b : ascii) (s : string) : string :=
  match s with
  | EmptyString => EmptyString
  | String c s' => String (if Ascii.eqb c a then b else c) (replace a b s')
  end.

(** The ASCII characters for which [str.isspace] holds. *)
Definition is_space (c : ascii) : bool :=
  let n := nat_of_ascii c in
  ((9 <=? n) && (n <=? 13) || (28 <=? n) && (n <=? 32))%nat.

(** The ASCII characters for which C's [isspace] holds: the white space
    that [int] and [float] skip within ASCII. *)
Definition is_c_space (c : ascii) : bool :=
  let n := nat_of_ascii c in
  ((9 <=? n) && (n <=? 13) || (n =? 32))%nat.

(** The characters outside ASCII for which [str.isspace] holds, by their
    UTF-8 bytes: U+0085 and U+00A0 take two bytes; U+1680, U+2000 to
    U+200A, U+2028, U+2029, U+202F, U+205F and U+3000 take three. *)
Definition wide_space2 (a b : ascii) : bool :=
  let a := nat_of_ascii a in
  let b := nat_of_ascii b in
  ((a =? 194) && ((b =? 133) || (b =? 160)))%nat.

Definition wide_space3 (a b c : ascii) : bool :=
  let a := nat_of_ascii a in
  let b := nat_of_ascii b in
  let c := nat_of_ascii c in
  ((a =? 225) && (b =? 154) && (c =? 128)
   || (a =? 226) && (b =? 128)
      && ((128 <=? c) && (c <=? 138) || (c =? 168) || (c =? 169) || (c =? 175))
   || (a =? 226) && (b =? 129) && (c =? 159)
   || (a =? 227) && (b =? 128) && (c =? 128))%nat.

(** [s] without the white space at its head, where [ascii_space] tells
    the white space within ASCII. *)
Fixpoint lstrip_with (ascii_space : ascii -> bool) (s : string) : string :=
  match s with
  | EmptyString => EmptyString
  | String a s1 =>
      if ascii_space a then lstrip_with ascii_space s1
      else
        match s1 with
        | EmptyString => s
        | String b s2 =>
            if wide_space2 a b then lstrip_with ascii_space s2
            else
              match s2 with
              | EmptyString => s
              | String c s3 =>
                  if wide_space3 a b c then lstrip_with ascii_space s3 else s
              end
        end
  end.

(** [s] without the white space at its end: the longest suffix made of
    white space only is dropped. *)
Fixpoint rstrip_with (ascii_space : ascii -> bool) (s : string) : string :=
  match s with
  | EmptyString => EmptyString
  | String a s' =>
      match lstrip_with ascii_space s with
      | EmptyString => EmptyString
      | _ => String a (rstrip_with ascii_space s')
      end
  end.

Definition strip_with (ascii_space : ascii -> bool) (s : string) : string :=
  rstrip_with ascii_space (lstrip_with ascii_space s).

Definition lstrip : string -> string := lstrip_with is_space.
Definition rstrip : string -> string := rstrip_with is_space.

(** [s.strip()] *)
Definition strip (s : string) : string := strip_with is_space s.

(** Every character of [s] is ASCII. *)
Fixpoint is_ascii (s : string) : bool :=
  match s with
  | EmptyString => true
  | String a s' => (nat_of_ascii a <? 128)%nat && is_ascii s'
  end.

(** [s.startswith(prefix)] *)
Fixpoint startswith (s prefix : string) : bool :=
  match prefix with
  | EmptyString => true
  | String b prefix' =>
      match s with
      | EmptyString => false
      | String a s' => Ascii.eqb a b && startswith s' prefix'
      end
  end.

(** [s[k:]] *)
Fixpoint drop (k : nat) (s : string) : string :=
  match k, s with
  | S k', String _ s' => drop k' s'
  | _, _ => s
  end.

(** [s.endswith(suffix)] *)
Definition endswith (s suffix : string) : bool :=
  let n := String.length s in
  let k := String.length suffix in
  ((k <=? n) && String.eqb (substring (n - k) k s) suffix)%nat.

(** [s[:-k]] for [k > 0] *)
Definition drop_last (k : nat) (s : string) : string :=
  substring 0 (String.length s - k) s.

End Str.

(** ** The element tree of [xml.etree.ElementTree]

    [attrib] is a Python dict: insertion-ordered, with distinct keys. *)

#[warnings="-register-all"]
Inductive Element : Type :=
| Elem (tag : string) (attrib : list (string * string))
       (text : option string) (children : list Element).

Definition tag (e : Element) : string :=
  match e with Elem t _ _ _ => t end.
Definition attrib (e : Element) : list (string * string) :=
  match e with Elem _ a _ _ => a end.
Definition text (e : Element) : option string :=
  match e with Elem _ _ x _ => x end.
Definition children (e : Element) : list Element :=
  match e with Elem _ _ _ c => c end.

(** [inner] below a chain of elements that carry no attributes, given
    by their tags and texts from the outside in. *)
Fixpoint nest (wrappers : list (string * option string)) (inner : Element)
  : Element :=
  match wrappers with
  | [] => inner
  | (t, x) :: wrappers' => Elem t [] x [nest wrappers' inner]
  end.

(** [d.get(key)] on an attribute dict. *)
Fixpoint attrib_get (key : string) (d : list (string * string)) : option string :=
  match d with
  | [] => None
  | (k, v) :: d' => if String.eqb k key then Some v else attrib_get key d'
  end.

(** [root.findall(path)] for a path that is one qualified tag
    [{uri}local]: the children of [root] carrying exactly that tag, in
    document order. *)
Definition findall (root : Element) (path : string) : list Element :=
  filter (fun c => String.eqb (tag c) path = true) (children root).

(** ** Module-level constants and functions *)

Definition DOOR_METRICS : list string := ["load"].
Definition DOMAIN_METRICS : list string := ["event_queue_size"; "thread_count"].
Definition POOL_METRICS : list string :=
  [ "heartbeat_seconds"; "enabled"; "read_only";
    "active"; "queued";
    "total_bytes"; "precious_bytes"; "removable_bytes"; "used_bytes";
    "free_bytes"; "gap_bytes"; "LRU_seconds"; "break_even" ].
Definition POOLGROUP_METRICS : list string :=
  [ "resilient";
    "total_bytes"; "precious_bytes"; "removable_bytes"; "used_bytes";
    "free_bytes" ].
Definition LINK_METRICS : list string :=
  [ "total_bytes"; "precious_bytes"; "removable_bytes"; "used_bytes";
    "free_bytes";
    "cache"; "read"; "write"; "p2p" ].
Definition LINKGROUP_METRICS : list string :=
  [ "total_bytes"; "reserved_bytes"; "available_bytes"; "used_bytes";
    "free_bytes" ].

Definition METRIC_GROUPS : list (list string) :=
  [ DOOR_METRICS; DOMAIN_METRICS; POOL_METRICS; POOLGROUP_METRICS;
    LINK_METRICS; LINKGROUP_METRICS ].

(** [set(m[:-6] for g in METRIC_GROUPS for m in g if m.endswith('_bytes'))] *)
Definition BYTES_METRICS : gset string :=
  list_to_set
    (flat_map
       (fun g => List.map (Str.drop_last 6)
                   (List.filter (fun m => Str.endswith m "_bytes") g))
       METRIC_GROUPS).

(** [re.match] of the pattern "an opening brace, any characters, a closing
    brace" at the start of [element.tag], then [m.group(0)]. The pattern is
    greedy and its dot does not match a line feed, so it takes the first
    line of the tag up to the last closing brace; when nothing matches,
    [m] is [None] and [m.group] raises. *)
Definition get_namespace (element : Element) : result string :=
  match Str.before_first Str.LF (tag element) with
  | String "{" rest =>
      match Str.split_last "}" rest with
      | Some (ns, _) => Ok (String "{" ns)
      | None => Raise AttributeError
      end
  | _ => Raise AttributeError
  end.

(** [re.match] of the same pattern made optional, followed by a second
    group of any characters, then [m.group(2)]: this always matches; the
    optional first group takes the longest braced prefix of the first
    line, the second group the rest of that line. *)
Definition get_short_tag (element : Element) : string :=
  let line := Str.before_first Str.LF (tag element) in
  match line with
  | String "{" rest =>
      match Str.split_last "}" rest with
      | Some (_, short) => short
      | None => line
      end
  | _ => line
  end.

(** ** Python numbers

    A metric value is a Python [int] or a Python [float]. *)

Inductive number : Type :=
| PyInt (z : Z)
| PyFloat (f : float).

Module Num.

Definition digit (c : ascii) : option Z :=
  let n := nat_of_ascii c in
  if ((48 <=? n) && (n <=? 57))%nat then Some (Z.of_nat n - 48) else None.

(** The rest of a [digitpart], read after one of its digits: digits,
    each optionally preceded by one underscore. *)
Fixpoint digitpart (acc : Z) (s : string) : option Z :=
  match s with
  | EmptyString => Some acc
  | String "_" (String c s') =>
      match digit c with
      | Some d => digitpart (10 * acc + d) s'
      | None => None
      end
  | String c s' =>
      match digit c with
      | Some d => digitpart (10 * acc + d) s'
      | None => None
      end
  end.

Definition digits (s : string) : option Z :=
  match s with
  | EmptyString => None
  | String c s' =>
      match digit c with
      | Some d => digitpart d s'
      | None => None
      end
  end.

(** [int(s)] for a string [s], base ten: surrounding white space, an
    optional sign, then a [digitpart] of any length. *)
Definition py_int (s : string) : result Z :=
  let unsigned (r : string) (sign : Z) :=
    match digits r with
    | Some n => Ok (sign * n)
    | None => Raise ValueError
    end in
  match Str.strip s with
  | String "+" r => unsigned r 1
  | String "-" r => unsigned r (-1)
  | r => unsigned r 1
  end.

(** Underscores of a float literal: each one stands between two digits;
    they are removed before the number is read. *)
Fixpoint drop_underscores (after_digit : bool) (s : string) : option string :=
  match s with
  | EmptyString => Some EmptyString
  | String "_" s' =>
      match s' with
      | String c _ =>
          if after_digit && bool_decide (is_Some (digit c))
          then drop_underscores false s'
          else None
      | EmptyString => None
      end
  | String c s' =>
      match drop_underscores (bool_decide (is_Some (digit c))) s' with
      | Some r => Some (String c r)
      | None => None
      end
  end.

(** The longest run of digits at the head of [s]: its value, its length
    and the rest of [s]. *)
Fixpoint run (acc : Z) (len : nat) (s : string) : Z * nat * string :=
  match s with
  | EmptyString => (acc, len, s)
  | String c s' =>
      match digit c with
      | Some d => run (10 * acc + d) (S len) s'
      | None => (acc, len, s)
      end
  end.

Definition lower (c : ascii) : ascii :=
  let n := nat_of_ascii c in
  if ((65 <=? n) && (n <=? 90))%nat then ascii_of_nat (n + 32) else c.

Fixpoint lowercase (s : string) : string :=
  match s with
  | EmptyString => EmptyString
  | String c s' => String (lower c) (lowercase s')
  end.

(** The binary64 nearest to [m * 10^e] (ties to even), [m >= 0]. *)
Definition decimal (negative : bool) (m e : Z) : float :=
  if (m =? 0)%Z then (if negative then (-0)%float else 0%float)
  else
    let signed := if negative then (- m)%Z else m in
    if (0 <=? e)%Z
    then SF2Prim (binary_normalize prec emax (signed * 10 ^ e) 0 false)
    else SF2Prim (SFdiv prec emax
                    (S754_finite negative (Z.to_pos m) 0)
                    (S754_finite false (Z.to_pos (10 ^ (- e))) 0)).

(** The exponent part of a float literal, possibly absent. *)
Definition exponent (s : string) : option Z :=
  match s with
  | EmptyString => Some 0
  | String c r =>
      if Ascii.eqb (lower c) "e" then
        let '(sign, r') :=
          match r with
          | String "+" r' => (1, r')
          | String "-" r' => (-1, r')
          | _ => (1, r)
          end in
        match run 0 0 r' with
        | (n, S _, EmptyString) => Some (sign * n)
        | _ => None
        end
      else None
  end.

(** [float(s)] for a string [s]: surrounding white space, an optional
    sign, then [inf], [infinity], [nan] in any case, or a decimal
    literal with an optional fraction and exponent. *)
Definition py_float (s : string) : result float :=
  match drop_underscores false (Str.strip s) with
  | None => Raise ValueError
  | Some t =>
      let '(negative, body) :=
        match t with
        | String "+" r => (false, r)
        | String "-" r => (true, r)
        | _ => (false, t)
        end in
      let word := lowercase body in
      if String.eqb word "inf" || String.eqb word "infinity"
      then Ok (if negative then neg_infinity else infinity)
      else if String.eqb word "nan" then Ok nan
      else
        let '(ipart, ilen, r1) := run 0 0 body in
        let '(m, flen, r2) :=
          match r1 with
          | String "." r => run ipart 0 r
          | _ => (ipart, 0%nat, r1)
          end in
        if (ilen + flen =? 0)%nat then Raise ValueError
        else
          match exponent r2 with
          | Some e => Ok (decimal negative m (e - Z.of_nat flen))
          | None => Raise ValueError
          end
  end.

(** The conversion of an [int] operand of a float operation: the nearest
    binary64, or [OverflowError] when that is out of range. *)
Definition float_of_int (z : Z) : result float :=
  let f := SF2Prim (binary_normalize prec emax z 0 false) in
  if PrimFloat.is_infinity f then Raise OverflowError else Ok f.

(** [x / y] for a float [y] other than zero. *)
Definition truediv (x : number) (y : float) : result number :=
  match x with
  | PyInt z => rbind (float_of_int z) (fun f => Ok (PyFloat (f / y)))
  | PyFloat f => Ok (PyFloat (f / y))
  end.

End Num.

(** ** Labels and the metric families of [prometheus_client]

    A label is a pair [(name, value)]; a value taken from [attrib.get]
    may be [None]. *)

Abbreviation label := (string * option string)%type.

Definition label_names (labels : list label) : list string := List.map fst labels.
Definition label_values (labels : list label) : list (option string) :=
  List.map snd labels.

(** [dict(zip(names, values))]: [zip] stops at the shorter list and a
    later pair overrides an earlier one with the same key. *)
Definition dict_zip (names : list string) (values : list (option string))
  : gmap string (option string) :=
  fold_left (fun d kv => <[fst kv := snd kv]> d) (combine names values) ∅.

(** [dict(labels)] for a list of pairs. *)
Definition dict_of (labels : list label) : gmap string (option string) :=
  fold_left (fun d kv => <[fst kv := snd kv]> d) labels ∅.

Record Sample : Type := mkSample {
  sample_name : string;
  sample_labels : gmap string (option string);
  sample_value : number
}.

(** The class [GaugeMetricFamily] of the client library
    [prometheus_client], which the exporter imports: the constructor
    called with [labels=...] keeps the label names;
    [add_metric(labels, value)] appends
    [Sample(name, dict(zip(_labelnames, labels)), value)] and checks
    nothing. *)
Record GaugeMetricFamily : Type := mkFamily {
  family_name : string;
  _labelnames : list string;
  samples : list Sample
}.

Definition new_family (name : string) (labels : list string) : GaugeMetricFamily :=
  mkFamily name labels [].

Definition add_metric (fam : GaugeMetricFamily) (labels : list (option string))
    (value : number) : GaugeMetricFamily :=
  mkFamily (family_name fam) (_labelnames fam)
    (samples fam ++ [mkSample (family_name fam)
                       (dict_zip (_labelnames fam) labels) value]).

(** ** State of a collection pass

    [heap] holds the Python lists of labels, a location being an index
    into it; [_metrics] is the dict [self._metrics]. *)

Abbreviation loc := nat.

Record State : Type := mkState {
  heap : list (list label);
  _metrics : gmap string GaugeMetricFamily
}.

Definition M (A : Type) : Type := State -> result (A * State).

Definition ret {A} (a : A) : M A := fun s => Ok (a, s).

Definition bind {A B} (m : M A) (k : A -> M B) : M B :=
  fun s => match m s with
           | Ok (a, s') => k a s'
           | Raise e => Raise e
           end.

Definition lift {A} (r : result A) : M A :=
  fun s => match r with
           | Ok a => Ok (a, s)
           | Raise e => Raise e
           end.

Notation "x <- m ;; k" := (bind m (fun x => k))
  (at level 20, m at level 99, k at level 200).
Notation "' p <- m ;; k" := (bind m (fun x => match x with p => k end))
  (at level 20, p pattern, m at level 99, k at level 200).
Notation "m >> k" := (bind m (fun _ => k))
  (at level 20, k at level 200).

(** A [for] loop whose body may raise. *)
Fixpoint for_each {A} (items : list A) (body : A -> M unit) : M unit :=
  match items with
  | [] => ret tt
  | x :: items' => body x >> for_each items' body
  end.

(** A list display [[a, b, ...]]: a new list object. *)
Definition new_list (content : list label) : M loc :=
  fun s => Ok (length (heap s), mkState (heap s ++ [content]) (_metrics s)).

(** Reading a list object (iteration, [in], a comprehension over it). *)
Definition read_list (l : loc) : M (list label) :=
  fun s => Ok (heap s !!! l, s).

(** [copy.copy(l)]: a new list object with the same items. *)
Definition copy_copy (l : loc) : M loc :=
  content <- read_list l ;; new_list content.

(** [l.append(x)]: in place. *)
Definition list_append (l : loc) (x : label) : M unit :=
  fun s => Ok (tt, mkState (alter (fun content => content ++ [x]) l (heap s))
                     (_metrics s)).

(** The two-statement idiom of the walker on the dict [self._metrics]:
    [if name not in self._metrics: self._metrics[name] = GaugeMetricFamily(name, '', labels=[names])]
    then [self._metrics[name].add_metric([values], value)]. *)
Definition recorded (metrics : gmap string GaugeMetricFamily)
    (metric_name : string) (labels : list label) (value : number)
  : gmap string GaugeMetricFamily :=
  let fam := match metrics !! metric_name with
             | Some fam => fam
             | None => new_family metric_name (label_names labels)
             end in
  <[metric_name := add_metric fam (label_values labels) value]> metrics.

Definition record (metric_name : string) (labels : list label) (value : number)
  : M unit :=
  fun s => Ok (tt, mkState (heap s) (recorded (_metrics s) metric_name labels value)).

(** ** class ExportTag *)

Module ExportTag.

Record t : Type := mk {
  name : string;
  prefix : string;
  default : option bool;
  include : list string;
  exclude : list string;
  _init_func : option (Element -> result (list label));
  _filter_func : option (list label -> list label -> result bool);
  (** the attribute [data], absent until [collect_init] sets it *)
  data : option (list label)
}.

(** [__init__] *)
Definition new (name prefix : string) (default : option bool)
    (include exclude : list string)
    (init_func : option (Element -> result (list label)))
    (filter_func : option (list label -> list label -> result bool)) : t :=
  mk name prefix default include exclude init_func filter_func None.

(** [collect_init]: returns the tag object after the call. *)
Definition collect_init (self : t) (element : Element) : result t :=
  match _init_func self with
  | Some init =>
      rbind (init element) (fun d =>
      Ok (mk (name self) (prefix self) (default self) (include self)
            (exclude self) (_init_func self) (_filter_func self) (Some d)))
  | None => Ok self
  end.

(** [collect_metric]: [labels] is read, never written. *)
Definition collect_metric (self : t) (field : string) (labels : list label)
  : result bool :=
  match default self with
  | None => Ok true
  | Some dflt =>
      let ok := if bool_decide (field ∈ include self) then true
                else if bool_decide (field ∈ exclude self) then false
                else dflt in
      match ok, _filter_func self with
      | true, Some filter =>
          match data self with
          | Some d => filter d labels
          | None => Raise AttributeError
          end
      | _, _ => Ok ok
      end
  end.

Definition DomainInit (element : Element) : result (list label) :=
  Ok (flat_map (fun routing =>
        if String.eqb (get_short_tag routing) "routing" then
          flat_map (fun route =>
            if String.eqb (get_short_tag route) "local" then
              flat_map (fun cell =>
                if String.eqb (get_short_tag cell) "cellref" then
                  [("cell_name", attrib_get "name" (attrib cell))]
                else [])
                (children route)
            else [])
            (children routing)
        else [])
        (children element)).

Definition DomainFilter (data labels : list label) : result bool :=
  Ok (existsb (fun d => bool_decide (d ∈ labels)) data).

End ExportTag.

(** ** class DcacheCollector *)

Module DcacheCollector.

Definition ExportTags : list ExportTag.t :=
  [ ExportTag.new "doors" "door" (Some false) DOOR_METRICS [] None None;
    ExportTag.new "domains" "domain" (Some false) DOMAIN_METRICS []
      (Some ExportTag.DomainInit) (Some ExportTag.DomainFilter);
    ExportTag.new "pools" "pool" (Some false) POOL_METRICS [] None None;
    ExportTag.new "poolgroups" "poolgroup" (Some false) POOLGROUP_METRICS []
      None None;
    ExportTag.new "links" "link" (Some false) LINK_METRICS [] None None;
    ExportTag.new "linkgroups" "linkgroup" (Some false) LINKGROUP_METRICS []
      None None ].

(** The attributes of [self] set by [__init__] from the command line. *)
Record t : Type := mk {
  _info_host : string;
  _info_port : Z;
  _cluster : string
}.

(** What the info service does when asked: the outcome of
    [sock.connect] and, once connected, of reading the stream to its end
    and parsing it with [ET.fromstring]. *)
Record Network : Type := mkNetwork {
  connect : string -> Z -> result unit;
  document : result Element
}.

Definition _get_xml_tree (self : t) (net : Network) : result Element :=
  rbind (connect net (_info_host self) (_info_port self)) (fun _ =>
  document net).

(** [name] is the value of [element.get('name')]: a string or [None].
    [None] is in no set and equals no string; [None.replace] raises. *)
Definition _metric_transform (name : option string)
  : result (string * (number -> result number)) :=
  match name with
  | Some name =>
      if bool_decide (name ∈ BYTES_METRICS)
      then Ok (name +:+ "_bytes", fun x => Ok x)
      else if String.eqb name "last-heartbeat"
      then Ok ("heartbeat_seconds", fun x => Num.truediv x 1000)
      else Ok (Str.replace "-" "_" name, fun x => Ok x)
  | None => Raise AttributeError
  end.

(** [[n for (n, v) in tag.attrib.items()]] turned into labels. *)
Definition attrib_labels (tag : string) (attrs : list (string * string))
  : list label :=
  List.map (fun nv => (tag +:+ "_" +:+ fst nv, Some (snd nv))) attrs.

(** The inner loop [for n, v in element.attrib.items(): l.append(...)]. *)
Fixpoint append_all (l : loc) (items : list label) : M unit :=
  match items with
  | [] => ret tt
  | x :: items' => list_append l x >> append_all l items'
  end.

(** The first [if] of [_collect_metric], for a node whose short tag is
    [metric]. The block only reads [labels]; [current] is the items of
    that list. *)
Definition emit (element : Element) (export : ExportTag.t)
    (current : list label) : M unit :=
  let type := attrib_get "type" (attrib element) in
  ' (name, transform) <-
      lift (_metric_transform (attrib_get "name" (attrib element))) ;;
  ok <- lift (ExportTag.collect_metric export name current) ;;
  if ok : bool then
    let metric_name :=
      "dcache_" +:+ ExportTag.prefix export +:+ "_" +:+ name in
    if bool_decide (type ∈ [Some "float"; Some "integer"; Some "boolean"])
    then
      value <- lift
        (if bool_decide (type = Some "boolean") then
           match text element with
           | Some txt =>
               if String.eqb (Str.strip txt) "true" then Ok (PyInt 1)
               else Ok (PyInt 0)
           | None => Raise AttributeError
           end
         else if bool_decide (type = Some "float") then
           match text element with
           | Some txt => rbind (Num.py_float txt) (fun f => Ok (PyFloat f))
           | None => Raise TypeError
           end
         else
           match text element with
           | Some txt => rbind (Num.py_int txt) (fun z => Ok (PyInt z))
           | None => Raise TypeError
           end) ;;
      value <- lift (transform value) ;;
      record metric_name current value
    else ret tt
  else ret tt.

Definition observe (element : Element) (export : ExportTag.t) (labels : loc)
  : M unit :=
  current <- read_list labels ;; emit element export current.

(** The [poolref] branch of the second [if]. *)
Definition relate (element : Element) (export : ExportTag.t) (labels : loc)
  : M unit :=
  let metric_name := "dcache_" +:+ ExportTag.prefix export +:+ "_pool_rel" in
  labels <- copy_copy labels ;;
  list_append labels ("pool", attrib_get "name" (attrib element)) >>
  current <- read_list labels ;;
  record metric_name current (PyInt 1).

Fixpoint _collect_metric (element : Element) (export : ExportTag.t)
    (labels : loc) {struct element} : M unit :=
  let tag := get_short_tag element in
  (if String.eqb tag "metric" then observe element export labels
   else ret tt) >>
  if String.eqb tag "poolref" then relate element export labels
  else
    match element with
    | Elem _ attrs _ kids =>
        (fix for_child (kids : list Element) : M unit :=
           match kids with
           | [] => ret tt
           | child :: kids' =>
               l <- copy_copy labels ;;
               append_all l (attrib_labels tag attrs) >>
               _collect_metric child export l >>
               for_child kids'
           end) kids
    end.

(** The [for child in element] loop of [_collect_metric], by name. *)
Fixpoint for_child (tag : string) (attrs : list (string * string))
    (export : ExportTag.t) (labels : loc) (kids : list Element) : M unit :=
  match kids with
  | [] => ret tt
  | child :: kids' =>
      l <- copy_copy labels ;;
      append_all l (attrib_labels tag attrs) >>
      _collect_metric child export l >>
      for_child tag attrs export labels kids'
  end.

(** The [for child in element] loop of [_collect_metrics_set]: every
    child is handed the same list object. *)
Fixpoint for_member_child (export : ExportTag.t) (labels : loc)
    (kids : list Element) : M unit :=
  match kids with
  | [] => ret tt
  | child :: kids' =>
      _collect_metric child export labels >>
      for_member_child export labels kids'
  end.

(** Returns the tag object as [collect_init] leaves it. *)
Definition _collect_metrics_set (self : t) (element : Element)
    (export : ExportTag.t) : M ExportTag.t :=
  export <- lift (ExportTag.collect_init export element) ;;
  name <- lift
    (if String.eqb (get_short_tag element) "linkgroup" then
       Ok (attrib_get "lgid" (attrib element))
     else
       match attrib_get "name" (attrib element) with
       | Some name =>
           if Str.contains "@" name
           then Ok (Some (Str.before_first "@" name))
           else Ok (Some name)
       | None => Raise TypeError
       end) ;;
  labels <- new_list [ ("dcache_cluster", Some (_cluster self));
                       (ExportTag.prefix export, name) ] ;;
  for_member_child export labels (children element) >>
  ret export.

(** [for elem in elements[0]: self._collect_metrics_set(elem, export)] *)
Fixpoint for_member (self : t) (export : ExportTag.t)
    (members : list Element) : M ExportTag.t :=
  match members with
  | [] => ret export
  | elem :: members' =>
      export <- _collect_metrics_set self elem export ;;
      for_member self export members'
  end.

(** [for export in DcacheCollector.ExportTags: ...] *)
Fixpoint for_export (self : t) (tree : Element) (ns : string)
    (exports : list ExportTag.t) : M unit :=
  match exports with
  | [] => ret tt
  | export :: exports' =>
      (match findall tree (ns +:+ ExportTag.name export) with
       | container :: _ =>
           for_member self export (children container) >> ret tt
       | [] => ret tt
       end) >>
      for_export self tree ns exports'
  end.

(** [self._metrics = {}], then the loop over the categories. The lists
    of an earlier pass are unreachable; the pass starts on an empty
    store. *)
Definition _collect_all_metrics (self : t) (tree : Element) (ns : string)
  : result (gmap string GaugeMetricFamily) :=
  match for_export self tree ns ExportTags (mkState [] ∅) with
  | Ok (_, s) => Ok (_metrics s)
  | Raise e => Raise e
  end.

(** [sorted(self._metrics.keys())]: strings compare character by
    character. *)
Definition str_le (a b : string) : Prop := String.leb a b = true.

#[export] Instance str_le_dec (a b : string) : Decision (str_le a b) :=
  bool_eq_dec (String.leb a b) true.

Definition sorted_keys (metrics : gmap string GaugeMetricFamily) : list string :=
  merge_sort str_le (List.map fst (map_to_list metrics)).

(** The generator [collect], run to its end: the families it yields
    and the exception that leaves it, if any. *)
Definition collect (self : t) (net : Network)
  : list GaugeMetricFamily * option exn :=
  let body :=
    rbind (_get_xml_tree self net) (fun tree =>
    rbind (get_namespace tree) (fun ns =>
    rbind (_collect_all_metrics self tree ns) (fun metrics =>
    Ok (omap (fun metric_name => metrics !! metric_name)
          (sorted_keys metrics))))) in
  match body with
  | Ok families => (families, None)
  | Raise ConnectionRefusedError => ([], None)
  | Raise e => ([], Some e)
  end.

End DcacheCollector.

(** ** The walker with labels passed by value

    The walk as section 4.3 of the specification words it: a node appends
    its attribute labels to a copy of the current label set and every
    child is handed that extended set. Label sets are immutable values
    here, so the set a node sees is a function of its ancestor path. *)

Module ByValue.
Import DcacheCollector.

Fixpoint walk (element : Element) (export : ExportTag.t)
    (labels : list label) {struct element} : M unit :=
  let tag := get_short_tag element in
  (if String.eqb tag "metric" then emit element export labels
   else ret tt) >>
  if String.eqb tag "poolref" then
    record ("dcache_" +:+ ExportTag.prefix export +:+ "_pool_rel")
      (labels ++ [("pool", attrib_get "name" (attrib element))]) (PyInt 1)
  else
    match element with
    | Elem _ attrs _ kids =>
        (fix each (kids : list Element) : M unit :=
           match kids with
           | [] => ret tt
           | child :: kids' =>
               walk child export (labels ++ attrib_labels tag attrs) >>
               each kids'
           end) kids
    end.

Fixpoint each (tag : string) (attrs : list (string * string))
    (export : ExportTag.t) (labels : list label) (kids : list Element)
  : M unit :=
  match kids with
  | [] => ret tt
  | child :: kids' =>
      walk child export (labels ++ attrib_labels tag attrs) >>
      each tag attrs export labels kids'
  end.

(** The outcome of a computation, the store of lists left aside. *)
Definition outcome {A} (r : result (A * State))
  : result (A * gmap string GaugeMetricFamily) :=
  match r with
  | Ok (a, s) => Ok (a, _metrics s)
  | Raise e => Raise e
  end.

End ByValue.

(** A computation that leaves the store of lists alone: its outcome and
    its effect on the families are the same on every store. *)
Definition heap_blind (c : M unit) : Prop :=
  forall m,
    (exists m', forall h, c (mkState h m) = Ok (tt, mkState h m')) \/
    (exists err, forall h, c (mkState h m) = Raise err).

(** [c], started in [s], extends the store and otherwise does to the
    families what [v] does. *)
Definition refines (c : M unit) (v : M unit) (s : State) : Prop :=
  forall h,
    match c s with
    | Ok (_, s') =>
        heap s `prefix_of` heap s' /\
        v (mkState h (_metrics s)) = Ok (tt, mkState h (_metrics s'))
    | Raise e => v (mkState h (_metrics s)) = Raise e
    end.

(** An element that contributes nothing but its children to the walk:
    neither a [metric] nor a [poolref]. *)
Definition structural (w : string * option string) : Prop :=
  get_short_tag (Elem (fst w) [] (snd w) []) <> "metric" /\
  get_short_tag (Elem (fst w) [] (snd w) []) <> "poolref".

(** ** Sample documents *)

Module Examples.

Definition ns : string := "{http://www.dcache.org/2008/01/Info}".

Definition el (local : string) (attrs : list (string * string))
    (txt : option string) (kids : list Element) : Element :=
  Elem (ns +:+ local) attrs txt kids.

Definition self : DcacheCollector.t :=
  DcacheCollector.mk "localhost" 22112 "prod".

Definition serving (tree : Element) : DcacheCollector.Network :=
  DcacheCollector.mkNetwork (fun _ _ => Ok tt) (Ok tree).

Definition refusing : DcacheCollector.Network :=
  DcacheCollector.mkNetwork (fun _ _ => Raise ConnectionRefusedError)
    (Raise (OtherError "not connected")).

Definition pools_tag : ExportTag.t :=
  ExportTag.new "pools" "pool" (Some false) POOL_METRICS [] None None.
Definition poolgroups_tag : ExportTag.t :=
  ExportTag.new "poolgroups" "poolgroup" (Some false) POOLGROUP_METRICS []
    None None.
Definition linkgroups_tag : ExportTag.t :=
  ExportTag.new "linkgroups" "linkgroup" (Some false) LINKGROUP_METRICS []
    None None.
Definition domains_tag : ExportTag.t :=
  ExportTag.new "domains" "domain" (Some false) DOMAIN_METRICS []
    (Some ExportTag.DomainInit) (Some ExportTag.DomainFilter).

(** The labels of the pool [pool1] of the cluster [prod]. *)
Definition pool1 : list label :=
  [("dcache_cluster", Some "prod"); ("pool", Some "pool1")].

Definition used_bytes : Element :=
  el "metric" [("name", "used-bytes"); ("type", "integer")] (Some "1024") [].

(** One pool with one value under [space]. *)
Definition one_pool : Element :=
  el "dCache" [] None
    [el "pools" [] None
       [el "pool" [("name", "pool1@qualifier")] None
          [el "space" [] None [used_bytes]]]].

(** One pool whose field [active] occurs twice: directly under the
    member and under a queue that carries a name. *)
Definition two_depths : Element :=
  el "dCache" [] None
    [el "pools" [] None
       [el "pool" [("name", "pool1")] None
          [el "metric" [("name", "active"); ("type", "integer")] (Some "3") [];
           el "queue" [("name", "q1")] None
             [el "metric" [("name", "active"); ("type", "integer")]
                (Some "5") []]]]].

Definition heartbeat : Element :=
  el "metric" [("name", "last-heartbeat"); ("type", "integer")] (Some "1500")
    [el "note" [] None []].

(** A boolean whose text is padded with a blank. *)
Definition padded_true : Element :=
  el "metric" [("name", "enabled"); ("type", "boolean")] (Some " true") [].

Definition poolref : Element :=
  el "poolref" [("name", "pool1")] None [used_bytes].

(** A domain that routes to [cellA] and hosts [cellA] and [cellB]. *)
Definition domain : Element :=
  el "domain" [("name", "dCacheDomain")] None
    [el "routing" [] None
       [el "local" [] None [el "cellref" [("name", "cellA")] None []]];
     el "cells" [] None
       [el "cell" [("name", "cellA")] None
          [el "metric" [("name", "thread-count"); ("type", "integer")]
             (Some "4") []];
        el "cell" [("name", "cellB")] None
          [el "metric" [("name", "thread-count"); ("type", "integer")]
             (Some "9") []]]].

End Examples.

(** ** The recorded value as the specification words it *)

Module Claimed.

(** Coercion of the leaf text: boolean text [true] is 1 and any other
    boolean text 0; float text is read as a real, integer text as a
    whole number. *)
Definition coerce (type txt : string) : result number :=
  if String.eqb type "boolean" then
    Ok (PyInt (if String.eqb txt "true" then 1 else 0))
  else if String.eqb type "float" then
    rbind (Num.py_float txt) (fun f => Ok (PyFloat f))
  else
    rbind (Num.py_int txt) (fun z => Ok (PyInt z)).

(** The same with the leaf text stripped of surrounding white space
    before it is compared with [true]. *)
Definition coerce_stripped (type txt : string) : result number :=
  if String.eqb type "boolean" then
    Ok (PyInt (if String.eqb (Str.strip txt) "true" then 1 else 0))
  else if String.eqb type "float" then
    rbind (Num.py_float txt) (fun f => Ok (PyFloat f))
  else
    rbind (Num.py_int txt) (fun z => Ok (PyInt z)).

(** The staged answer of the category filter, before the filter
    function: include wins, then exclude, then the default. *)
Definition tentative (include exclude : list string) (dflt : bool)
    (field : string) : bool :=
  if bool_decide (field ∈ include) then true
  else if bool_decide (field ∈ exclude) then false
  else dflt.

(** Scaling by raw field name: the heartbeat field is divided by 1000,
    every other field passes through. *)
Definition scale (raw : string) (v : number) : result number :=
  if String.eqb raw "last-heartbeat" then Num.truediv v 1000 else Ok v.

Definition value (raw type txt : string) : result number :=
  rbind (coerce type txt) (scale raw).

Definition value_stripped (raw type txt : string) : result number :=
  rbind (coerce_stripped type txt) (scale raw).

End Claimed.

(** ** Notions for the properties of a whole pass *)

(** What is asked of the outcome of a computation: [I] of the families
    it leaves, or [E] of the exception it raises. *)
Definition post {A} (I : gmap string GaugeMetricFamily -> Prop)
    (E : exn -> Prop) (r : result (A * State)) : Prop :=
  match r with
  | Ok (_, s') => I (_metrics s')
  | Raise x => E x
  end.

(** The field names a category can record under: [pool_rel], and the
    names its filter says yes to for some labels. *)
Definition may_record (export : ExportTag.t) (field : string) : Prop :=
  field = "pool_rel" \/
  exists labels, ExportTag.collect_metric export field labels = Ok true.

(** The tag object [export'] is [export] with its [data] set. *)
Definition initialised (export export' : ExportTag.t) : Prop :=
  exists d,
    export' = ExportTag.mk (ExportTag.name export) (ExportTag.prefix export)
                (ExportTag.default export) (ExportTag.include export)
                (ExportTag.exclude export) (ExportTag._init_func export)
                (ExportTag._filter_func export) (Some d).

(** The families of [before] are still there in [after], under the same
    name and label names, with their samples followed by new ones. *)
Definition grows (before after : gmap string GaugeMetricFamily) : Prop :=
  forall key fam,
    before !! key = Some fam ->
    exists fam',
      after !! key = Some fam' /\
      family_name fam' = family_name fam /\
      _labelnames fam' = _labelnames fam /\
      samples fam `prefix_of` samples fam'.

(** A family as the walker builds it under [key]. *)
Definition well_formed (key : string) (fam : GaugeMetricFamily) : Prop :=
  family_name fam = key /\
  samples fam <> [] /\
  Forall (fun smp => sample_name smp = key) (samples fam).

(** The exceptions a walk over a fetched document can raise. *)
Definition walk_error (x : exn) : Prop :=
  x = AttributeError \/ x = TypeError \/ x = ValueError \/ x = OverflowError.

(** A tag object of the table [ExportTags], as it is or with its [data]
    set by [collect_init]. *)
Definition of_table (export' : ExportTag.t) : Prop :=
  exists export,
    export ∈ DcacheCollector.ExportTags /\
    (export' = export \/ initialised export export').

(** The labels every member of the category of [export] starts with. *)
Definition seeded (self : DcacheCollector.t) (export : ExportTag.t)
    (labels : list label) : Prop :=
  exists identity,
    [("dcache_cluster", Some (DcacheCollector._cluster self));
     (ExportTag.prefix export, identity)] `prefix_of` labels.

(** * Proofs *)

Import DcacheCollector.

(** ** Induction on element trees *)

Lemma Element_tree_ind (P : Element -> Prop) :
  (forall t a x kids, Forall P kids -> P (Elem t a x kids)) ->
  forall e, P e.
Proof.
  intros step. fix IH 1. intros [t a x kids]. apply step.
  induction kids as [|k kids IHkids]; constructor; [apply IH | exact IHkids].
Qed.

(** ** The store of label lists *)

Lemma append_all_last (h : list (list label)) (c items : list label) m :
  append_all (length h) items (mkState (h ++ [c]) m)
  = Ok (tt, mkState (h ++ [c ++ items]) m).
Proof.
  revert c. induction items as [|x items IH]; intros c; simpl.
  - unfold ret. by rewrite app_nil_r.
  - unfold bind, list_append. cbn [heap _metrics].
    assert (alter (fun content => content ++ [x]) (length h) (h ++ [c])
            = h ++ [c ++ [x]]) as ->.
    { rewrite <- (Nat.add_0_r (length h)) at 1. by rewrite alter_app_r. }
    rewrite IH. by rewrite <- app_assoc.
Qed.

Lemma fresh_copy {A} (l : loc) (items : list label) (k : loc -> M A) s :
  (l' <- copy_copy l ;; append_all l' items >> k l') s
  = (l' <- new_list (heap s !!! l ++ items) ;; k l') s.
Proof.
  unfold bind, copy_copy, read_list, new_list, bind. simpl.
  by rewrite append_all_last.
Qed.

Lemma lookup_total_Some (h : list (list label)) (l : loc) L :
  h !! l = Some L -> h !!! l = L.
Proof. intros H. by rewrite (list_lookup_total_correct _ _ _ H). Qed.

(** ** The loops by name *)

Lemma _collect_metric_eq t a x kids export labels s :
  _collect_metric (Elem t a x kids) export labels s
  = ((if String.eqb (get_short_tag (Elem t a x kids)) "metric"
      then observe (Elem t a x kids) export labels else ret tt) >>
     if String.eqb (get_short_tag (Elem t a x kids)) "poolref"
     then relate (Elem t a x kids) export labels
     else for_child (get_short_tag (Elem t a x kids)) a export labels kids) s.
Proof.
  cbn [_collect_metric].
  generalize (observe (Elem t a x kids) export labels) as first.
  generalize (relate (Elem t a x kids) export labels) as second.
  generalize (get_short_tag (Elem t a x kids)) as tg.
  intros tg second first. unfold bind at 1 5.
  destruct ((if String.eqb tg "metric" then first else ret tt) s)
    as [[[] s1]|e]; [|done].
  destruct (String.eqb tg "poolref"); [done|].
  revert s1. induction kids as [|k kids IH]; intros s1; [done|].
  cbn [for_child]. unfold bind.
  destruct (copy_copy labels s1) as [[l s2]|]; [|done].
  destruct (append_all _ _ s2) as [[[] s3]|]; [|done].
  destruct (_collect_metric k export l s3) as [[[] s4]|]; [|done].
  apply IH.
Qed.

Lemma walk_eq t a x kids export L s :
  ByValue.walk (Elem t a x kids) export L s
  = ((if String.eqb (get_short_tag (Elem t a x kids)) "metric"
      then emit (Elem t a x kids) export L else ret tt) >>
     if String.eqb (get_short_tag (Elem t a x kids)) "poolref"
     then record ("dcache_" +:+ ExportTag.prefix export +:+ "_pool_rel")
            (L ++ [("pool", attrib_get "name" a)]) (PyInt 1)
     else ByValue.each (get_short_tag (Elem t a x kids)) a export L kids) s.
Proof.
  cbn [ByValue.walk attrib].
  generalize (emit (Elem t a x kids) export L) as first.
  generalize (get_short_tag (Elem t a x kids)) as tg.
  intros tg first. unfold bind at 1 3.
  destruct ((if String.eqb tg "metric" then first else ret tt) s)
    as [[[] s1]|e]; [|done].
  destruct (String.eqb tg "poolref"); [done|].
  revert s1. induction kids as [|k kids IH]; intros s1; [done|].
  cbn [ByValue.each]. unfold bind.
  destruct (ByValue.walk k export _ s1) as [[[] s4]|]; [|done].
  apply IH.
Qed.

(** ** Computations that leave the store of lists alone *)

Lemma heap_blind_ret : heap_blind (ret tt).
Proof. intros m. left. by exists m. Qed.

Lemma heap_blind_record mn L v : heap_blind (record mn L v).
Proof. intros m. left. by exists (recorded m mn L v). Qed.

Lemma heap_blind_emit element export L : heap_blind (emit element export L).
Proof.
  intros m. unfold emit, bind, lift.
  destruct (_metric_transform _) as [[name transform]|e]; [|right; by exists e].
  destruct (ExportTag.collect_metric _ _ _) as [[]|e];
    [| left; by exists m | right; by exists e].
  destruct (bool_decide (_ ∈ _)); [|left; by exists m].
  match goal with
  | |- context [match ?v with Ok _ => _ | Raise _ => _ end] =>
      destruct v as [value|e]
  end; [|right; by exists e].
  destruct (transform value) as [scaled|e]; [|right; by exists e].
  left. eexists (recorded m _ L scaled). intros h. reflexivity.
Qed.

Lemma observe_emit element export l L s :
  heap s !! l = Some L ->
  observe element export l s = emit element export L s.
Proof.
  intros H. unfold observe, bind, read_list.
  by rewrite (lookup_total_Some _ _ _ H).
Qed.

Lemma relate_eq element export l L s :
  heap s !! l = Some L ->
  relate element export l s
  = Ok (tt, mkState (heap s ++ [L ++ [("pool", attrib_get "name" (attrib element))]])
              (recorded (_metrics s)
                 ("dcache_" +:+ ExportTag.prefix export +:+ "_pool_rel")
                 (L ++ [("pool", attrib_get "name" (attrib element))])
                 (PyInt 1))).
Proof.
  intros H. unfold relate, bind, copy_copy, read_list, new_list, bind,
    list_append, record. cbn [heap _metrics].
  rewrite (lookup_total_Some _ _ _ H).
  assert (alter (fun content => content ++ [("pool", attrib_get "name" (attrib element))])
            (length (heap s)) (heap s ++ [L])
          = heap s ++ [L ++ [("pool", attrib_get "name" (attrib element))]]) as ->.
  { rewrite <- (Nat.add_0_r (length (heap s))) at 1. by rewrite alter_app_r. }
  by rewrite list_lookup_total_middle.
Qed.

(** ** The walker against the walker by value *)

Lemma refines_blind (c : M unit) s :
  heap_blind c -> refines c c s.
Proof.
  intros Hc h. destruct s as [h0 m]. cbn [heap _metrics].
  destruct (Hc m) as [[m' Hm]|[e He]].
  - rewrite !Hm. by split.
  - by rewrite !He.
Qed.

Lemma refines_bind (c1 c2 v1 v2 : M unit) s :
  refines c1 v1 s ->
  (forall s1, c1 s = Ok (tt, s1) -> refines c2 v2 s1) ->
  refines (c1 >> c2) (v1 >> v2) s.
Proof.
  intros H1 H2 h. specialize (H1 h). unfold bind.
  destruct (c1 s) as [[[] s1]|e].
  - destruct H1 as [Hp ->]. specialize (H2 s1 eq_refl h).
    destruct (c2 s1) as [[[] s2]|e2]; [|done].
    destruct H2 as [Hp2 ->]. split; [by etrans|done].
  - by rewrite H1.
Qed.

Lemma walk_refines element :
  forall export l L s,
    heap s !! l = Some L ->
    refines (_collect_metric element export l) (ByValue.walk element export L) s.
Proof.
  induction element as [t a x kids IH] using Element_tree_ind.
  intros export l L s Hl h.
  rewrite _collect_metric_eq, walk_eq. revert h.
  apply refines_bind.
  - destruct (String.eqb _ "metric").
    + intros h. rewrite (observe_emit _ _ _ _ _ Hl).
      by apply refines_blind, heap_blind_emit.
    + apply refines_blind, heap_blind_ret.
  - intros s1 Hs1.
    assert (heap s1 !! l = Some L) as Hl1.
    { destruct (String.eqb _ "metric").
      - rewrite (observe_emit _ _ _ _ _ Hl) in Hs1.
        destruct s as [h0 m].
        destruct (heap_blind_emit (Elem t a x kids) export L m) as [[m' Hm]|[e He]].
        + rewrite Hm in Hs1. by inversion Hs1.
        + by rewrite He in Hs1.
      - unfold ret in Hs1. by simplify_eq. }
    clear Hl Hs1 s. destruct (String.eqb _ "poolref").
    + intros h. rewrite (relate_eq _ _ _ _ _ Hl1). cbn [heap _metrics attrib].
      split; [by apply prefix_app_r | done].
    + generalize (get_short_tag (Elem t a x kids)) as tg. intros tg.
      revert s1 Hl1. induction IH as [|k kids Hk _ IHkids]; intros s1 Hl1.
      * intros h. cbn. by split.
      * cbn [for_child ByValue.each]. intros h. rewrite fresh_copy.
        rewrite (lookup_total_Some _ _ _ Hl1).
        unfold bind at 1. unfold new_list at 1.
        set (s2 := mkState (heap s1 ++ [L ++ attrib_labels tg a]) (_metrics s1)).
        assert (heap s2 !! length (heap s1) = Some (L ++ attrib_labels tg a)) as Hfresh.
        { subst s2. cbn [heap]. by rewrite list_lookup_middle. }
        pose proof (Hk export _ _ s2 Hfresh h) as Hchild.
        unfold bind.
        destruct (_collect_metric k export (length (heap s1)) s2) as [[[] s3]|e].
        -- destruct Hchild as [Hp Hv]. subst s2. cbn [heap _metrics] in *.
           rewrite Hv.
           assert (heap s1 `prefix_of` heap s3) as Hp13.
           { etrans; [|exact Hp]. by apply prefix_app_r. }
           assert (heap s3 !! l = Some L) as Hl3.
           { by eapply prefix_lookup_Some. }
           specialize (IHkids s3 Hl3 h).
           destruct (for_child tg a export l kids s3) as [[[] s4]|e]; [|done].
           destruct IHkids as [Hp34 ->]. split; [by etrans|done].
        -- subst s2. cbn [heap _metrics] in *. by rewrite Hchild.
Qed.

(** ** Label dicts *)

Lemma dict_zip_labels (L : list label) :
  dict_zip (label_names L) (label_values L) = dict_of L.
Proof.
  unfold dict_zip, dict_of, label_names, label_values.
  f_equal. induction L as [|[k v] L IH]; [done|]. cbn. by rewrite IH.
Qed.

Lemma dict_of_snoc (L : list label) k v :
  dict_of (L ++ [(k, v)]) = <[k := v]> (dict_of L).
Proof. unfold dict_of. by rewrite fold_left_app. Qed.


Lemma observe_heap element export l L s s1 :
  heap s !! l = Some L ->
  observe element export l s = Ok (tt, s1) ->
  heap s1 = heap s.
Proof.
  intros Hl H. rewrite (observe_emit _ _ _ _ _ Hl) in H.
  destruct s as [h m].
  destruct (heap_blind_emit element export L m) as [[m' Hm]|[e He]].
  - rewrite Hm in H. by simplify_eq.
  - by rewrite He in H.
Qed.

Lemma for_child_fresh tg a export l L kids :
  forall s,
    heap s !! l = Some L ->
    for_child tg a export l kids s
    = for_each kids
        (fun child =>
           l' <- new_list (L ++ attrib_labels tg a) ;;
           _collect_metric child export l') s.
Proof.
  induction kids as [|k kids IH]; intros s Hl; [done|].
  cbn [for_child for_each]. rewrite fresh_copy.
  rewrite (lookup_total_Some _ _ _ Hl).
  unfold bind at 1 3 4. unfold new_list.
  set (s2 := mkState (heap s ++ [L ++ attrib_labels tg a]) (_metrics s)).
  assert (heap s2 !! length (heap s) = Some (L ++ attrib_labels tg a)) as Hfresh.
  { subst s2. cbn [heap]. by rewrite list_lookup_middle. }
  pose proof (walk_refines k export _ _ s2 Hfresh []) as R.
  unfold bind.
  destruct (_collect_metric k export (length (heap s)) s2) as [[[] s3]|e]; [|done].
  apply IH. destruct R as [Hp _]. eapply prefix_lookup_Some; [|exact Hp].
  subst s2. cbn [heap]. by apply lookup_app_l_Some.
Qed.

(** Below a node that is not a [poolref], every child is walked with
    a list of its own, holding the labels of the caller's list followed
    by the labels of the node's attributes. *)
Lemma children_get_fresh_lists t a x kids export l L s :
  get_short_tag (Elem t a x kids) <> "poolref" ->
  heap s !! l = Some L ->
  _collect_metric (Elem t a x kids) export l s
  = ((if String.eqb (get_short_tag (Elem t a x kids)) "metric"
      then observe (Elem t a x kids) export l else ret tt) >>
     for_each kids
       (fun child =>
          l' <- new_list
                  (L ++ attrib_labels (get_short_tag (Elem t a x kids)) a) ;;
          _collect_metric child export l')) s.
Proof.
  intros Htag Hl. rewrite _collect_metric_eq.
  apply String.eqb_neq in Htag. rewrite Htag.
  unfold bind at 1. symmetry. unfold bind at 1. symmetry.
  destruct (String.eqb _ "metric").
  - destruct (observe _ export l s) as [[[] s1]|e] eqn:Hobs; [|done].
    rewrite (for_child_fresh _ _ _ _ L); [done|].
    by rewrite (observe_heap _ _ _ _ _ _ Hl Hobs).
  - cbn [ret]. by rewrite (for_child_fresh _ _ _ _ L).
Qed.

(** C9: the walk never changes a label list that existed before it
    started, the caller's list among them; what it does to the families
    is what the walker handing each child its own extended set of labels
    by value does, so the labels a node is recorded under depend on its
    ancestor path alone; and every child of a node is handed a list of its
    own that holds the caller's labels followed by the node's, whatever
    the walk of an earlier sibling did. *)
Theorem walk_keeps_caller_labels t a x kids export l L s :
  heap s !! l = Some L ->
  match _collect_metric (Elem t a x kids) export l s with
  | Ok (_, s') =>
      (forall l0 L0, heap s !! l0 = Some L0 -> heap s' !! l0 = Some L0) /\
      ByValue.outcome (ByValue.walk (Elem t a x kids) export L s)
      = Ok (tt, _metrics s')
  | Raise e => ByValue.walk (Elem t a x kids) export L s = Raise e
  end /\
  (get_short_tag (Elem t a x kids) <> "poolref" ->
   _collect_metric (Elem t a x kids) export l s
   = ((if String.eqb (get_short_tag (Elem t a x kids)) "metric"
       then observe (Elem t a x kids) export l else ret tt) >>
      for_each kids
        (fun child =>
           l' <- new_list
                   (L ++ attrib_labels (get_short_tag (Elem t a x kids)) a) ;;
           _collect_metric child export l')) s).
Proof.
  intros Hl. split.
  - pose proof (walk_refines (Elem t a x kids) export l L s Hl (heap s)) as R.
    destruct s as [h m]. cbn [heap _metrics] in *.
    destruct (_collect_metric _ export l _) as [[[] s']|e]; [|done].
    destruct R as [Hp ->]. split; [|done].
    intros l0 L0 H0. by eapply prefix_lookup_Some.
  - intros Htag. by apply children_get_fresh_lists.
Qed.

(** C8: a [poolref] node reached with the labels [L] records the one
    observation ([L] plus the pair [("pool", P)], value 1) under
    [dcache_<prefix>_pool_rel] and nothing else, whatever its children;
    the caller's list is left as it was. *)
Theorem poolref_records_relation t a x kids export l L s :
  get_short_tag (Elem t a x kids) = "poolref" ->
  heap s !! l = Some L ->
  let P := attrib_get "name" a in
  let metric_name := "dcache_" +:+ ExportTag.prefix export +:+ "_pool_rel" in
  let after := recorded (_metrics s) metric_name (L ++ [("pool", P)]) (PyInt 1) in
  _collect_metric (Elem t a x kids) export l s
  = Ok (tt, mkState (heap s ++ [L ++ [("pool", P)]]) after) /\
  (forall other, other <> metric_name -> after !! other = _metrics s !! other) /\
  match _metrics s !! metric_name with
  | None =>
      after !! metric_name
      = Some (mkFamily metric_name (label_names L ++ ["pool"])
                [mkSample metric_name (<["pool" := P]> (dict_of L)) (PyInt 1)])
  | Some fam =>
      after !! metric_name
      = Some (mkFamily (family_name fam) (_labelnames fam)
                (samples fam ++
                 [mkSample (family_name fam)
                    (dict_zip (_labelnames fam) (label_values L ++ [P]))
                    (PyInt 1)])) /\
      (_labelnames fam = label_names L ++ ["pool"] ->
       dict_zip (_labelnames fam) (label_values L ++ [P])
       = <["pool" := P]> (dict_of L))
  end.
Proof.
  intros Htag Hl P metric_name after. split; [|split].
  - rewrite _collect_metric_eq, Htag. cbn [String.eqb Ascii.eqb Bool.eqb].
    unfold bind at 1. cbn [ret]. by rewrite (relate_eq _ _ _ _ _ Hl).
  - intros other Hne. unfold after, recorded. by rewrite lookup_insert_ne.
  - assert (label_names (L ++ [("pool", P)]) = label_names L ++ ["pool"]) as Hn.
    { unfold label_names. by rewrite map_app. }
    assert (label_values (L ++ [("pool", P)]) = label_values L ++ [P]) as Hv.
    { unfold label_values. by rewrite map_app. }
    unfold after, recorded. rewrite lookup_insert_eq, Hn, Hv.
    destruct (_metrics s !! metric_name) as [fam|].
    + split; [done|]. intros ->.
      by rewrite <- Hn, <- Hv, dict_zip_labels, dict_of_snoc.
    + unfold add_metric, new_family. cbn [family_name _labelnames samples app].
      by rewrite <- Hn, <- Hv, dict_zip_labels, dict_of_snoc.
Qed.

(** C10: a [metric] node does not stop at recording its observation: every
    child is walked as well, each with a list of its own holding the
    current labels followed by one pair [("metric_<attribute>", value)]
    per attribute of the node; a [poolref] node ignores its children. *)
Theorem metric_node_recurses t a x kids export l L s :
  (get_short_tag (Elem t a x kids) = "metric" ->
   heap s !! l = Some L ->
   _collect_metric (Elem t a x kids) export l s
   = (observe (Elem t a x kids) export l >>
      for_each kids
        (fun child =>
           l' <- new_list
                   (L ++ List.map (fun nv => ("metric_" +:+ fst nv, Some (snd nv))) a) ;;
           _collect_metric child export l')) s) /\
  (get_short_tag (Elem t a x kids) = "poolref" ->
   _collect_metric (Elem t a x kids) export l s
   = _collect_metric (Elem t a x []) export l s).
Proof.
  split.
  - intros Htag Hl.
    rewrite (children_get_fresh_lists _ _ _ _ _ _ L); [|by rewrite Htag|done].
    by rewrite Htag.
  - intros Htag. rewrite !_collect_metric_eq.
    assert (get_short_tag (Elem t a x []) = "poolref") as -> by exact Htag.
    rewrite Htag. cbn [String.eqb Ascii.eqb Bool.eqb]. reflexivity.
Qed.

(** ** Strings *)

Lemma append_cons (c : ascii) (s t : string) :
  String c s +:+ t = String c (s +:+ t).
Proof. reflexivity. Qed.

Lemma append_nil (t : string) : "" +:+ t = t.
Proof. reflexivity. Qed.

Lemma length_append (s t : string) :
  String.length (s +:+ t) = (String.length s + String.length t)%nat.
Proof.
  induction s as [|c s IH]; [done|].
  rewrite append_cons. cbn. by rewrite IH.
Qed.

Lemma substring_whole (s : string) : substring 0 (String.length s) s = s.
Proof. induction s as [|c s IH]; [done|]. cbn. by rewrite IH. Qed.

Lemma substring_append_l (s t : string) :
  substring 0 (String.length s) (s +:+ t) = s.
Proof.
  induction s as [|c s IH]; [by destruct t|].
  rewrite append_cons. cbn. by rewrite IH.
Qed.

Lemma substring_append_r (s t : string) :
  substring (String.length s) (String.length t) (s +:+ t) = t.
Proof.
  induction s as [|c s IH]; [apply substring_whole|].
  rewrite append_cons. cbn. exact IH.
Qed.

Lemma substring_split (s : string) (i : nat) :
  (i <= String.length s)%nat ->
  substring 0 i s +:+ substring i (String.length s - i) s = s.
Proof.
  revert i. induction s as [|c s IH]; intros [|i] Hi; cbn in *.
  - done.
  - lia.
  - by rewrite append_nil, substring_whole.
  - rewrite append_cons, IH; [done|lia].
Qed.

Lemma endswith_append (s suffix : string) :
  Str.endswith (s +:+ suffix) suffix = true /\
  Str.drop_last (String.length suffix) (s +:+ suffix) = s.
Proof.
  unfold Str.endswith, Str.drop_last. rewrite length_append.
  replace (String.length s + String.length suffix - String.length suffix)%nat
    with (String.length s) by lia.
  rewrite substring_append_l, substring_append_r, String.eqb_refl.
  split; [|done]. apply andb_true_iff. split; [|done].
  apply Nat.leb_le. lia.
Qed.

Lemma endswith_split (m suffix : string) :
  Str.endswith m suffix = true ->
  Str.drop_last (String.length suffix) m +:+ suffix = m.
Proof.
  unfold Str.endswith, Str.drop_last. intros H.
  apply andb_true_iff in H as [Hle Heq].
  apply Nat.leb_le in Hle. apply String.eqb_eq in Heq.
  pose proof (substring_split m (String.length m - String.length suffix)) as Hs.
  replace (String.length m - (String.length m - String.length suffix))%nat
    with (String.length suffix) in Hs by lia.
  rewrite Heq in Hs. apply Hs. lia.
Qed.

(** The byte-valued names are the metric names of the groups that end in
    [_bytes], with that suffix taken off. *)
Lemma BYTES_METRICS_spec (raw : string) :
  raw ∈ BYTES_METRICS <->
  exists g m, g ∈ METRIC_GROUPS /\ m ∈ g /\ m = raw +:+ "_bytes".
Proof.
  unfold BYTES_METRICS. rewrite elem_of_list_to_set, list_elem_of_In, in_flat_map.
  split.
  - intros (g & Hg & Hin). apply in_map_iff in Hin as (m & <- & Hm).
    apply filter_In in Hm as [Hm Hends].
    exists g, m. rewrite !list_elem_of_In. split; [done|]. split; [done|].
    symmetry. exact (endswith_split m "_bytes" Hends).
  - intros (g & m & Hg & Hm & ->). exists g.
    apply list_elem_of_In in Hg. apply list_elem_of_In in Hm. split; [done|].
    apply in_map_iff. exists (raw +:+ "_bytes").
    destruct (endswith_append raw "_bytes") as [Hends Hdrop].
    split; [exact Hdrop|]. apply filter_In. by split.
Qed.

(** ** C4 *)

(** C4: the transform table is defined on every string and applies its
    three rules in order: a name of the byte-valued set (the metric names
    of the categories that end in [_bytes], the suffix taken off) gets
    [_bytes] appended and is not scaled; [last-heartbeat] becomes
    [heartbeat_seconds], divided by 1000; any other name has its hyphens
    replaced by underscores and is not scaled. *)
Theorem metric_transform_rules (raw : string) :
  (exists out, _metric_transform (Some raw) = Ok out) /\
  ((exists g m, g ∈ METRIC_GROUPS /\ m ∈ g /\ m = raw +:+ "_bytes") ->
   _metric_transform (Some raw) = Ok (raw +:+ "_bytes", fun x => Ok x)) /\
  (raw = "last-heartbeat" ->
   _metric_transform (Some raw)
   = Ok ("heartbeat_seconds", fun x => Num.truediv x 1000)) /\
  (~ (exists g m, g ∈ METRIC_GROUPS /\ m ∈ g /\ m = raw +:+ "_bytes") ->
   raw <> "last-heartbeat" ->
   _metric_transform (Some raw) = Ok (Str.replace "-" "_" raw, fun x => Ok x)).
Proof.
  unfold _metric_transform. rewrite <- BYTES_METRICS_spec.
  repeat split.
  - destruct (bool_decide _); [eauto|]. destruct (String.eqb _ _); eauto.
  - intros H. by rewrite bool_decide_eq_true_2.
  - intros ->. reflexivity.
  - intros H1 H2. rewrite bool_decide_eq_false_2 by done.
    apply String.eqb_neq in H2. by rewrite H2.
Qed.

Lemma metric_transform_rules_witness :
  (exists g m, g ∈ METRIC_GROUPS /\ m ∈ g /\ m = "used" +:+ "_bytes") /\
  _metric_transform (Some "used") = Ok ("used_bytes", fun x => Ok x) /\
  _metric_transform (Some "last-heartbeat")
  = Ok ("heartbeat_seconds", fun x => Num.truediv x 1000) /\
  _metric_transform (Some "used-bytes") = Ok ("used_bytes", fun x => Ok x).
Proof.
  assert (exists g m, g ∈ METRIC_GROUPS /\ m ∈ g /\ m = "used" +:+ "_bytes") as Hused.
  { exists POOL_METRICS, "used_bytes". split; [|split; [|reflexivity]].
    - apply list_elem_of_In. vm_compute. tauto.
    - apply list_elem_of_In. vm_compute. tauto. }
  split; [exact Hused|]. split; [|split].
  - exact (proj1 (proj2 (metric_transform_rules "used")) Hused).
  - exact (proj1 (proj2 (proj2 (metric_transform_rules "last-heartbeat"))) eq_refl).
  - apply (proj2 (proj2 (proj2 (metric_transform_rules "used-bytes")))).
    + rewrite <- BYTES_METRICS_spec. vm_compute. discriminate.
    + discriminate.
Defined.

(** ** C6 and C7: the category filter *)

Lemma DomainFilter_spec (data labels : list label) :
  exists b, ExportTag.DomainFilter data labels = Ok b /\
            (b = true <-> exists p, p ∈ data /\ p ∈ labels).
Proof.
  unfold ExportTag.DomainFilter. eexists. split; [reflexivity|].
  rewrite existsb_exists. split.
  - intros (p & Hp & Hin). exists p. split; [by apply list_elem_of_In|].
    by apply bool_decide_eq_true in Hin.
  - intros (p & Hp & Hin). exists p. split; [by apply list_elem_of_In|].
    by apply bool_decide_eq_true.
Qed.

(** C6: the category filter answers in stages. Without a default policy
    it says yes. Otherwise the tentative answer is yes for a name of the
    include list, no for a name of the exclude list, the default for any
    other name; a tentative no is final whatever the filter function and
    the data are (the function is not called); a tentative yes is final
    without a filter function, and with the filter function of the code
    it is yes exactly when some pair of the data is among the labels. *)
Theorem collect_metric_staged (self : ExportTag.t) (field : string)
    (labels : list label) :
  (ExportTag.default self = None ->
   ExportTag.collect_metric self field labels = Ok true) /\
  (forall dflt,
     ExportTag.default self = Some dflt ->
     let tentative :=
       Claimed.tentative (ExportTag.include self) (ExportTag.exclude self)
         dflt field in
     (tentative = false ->
      ExportTag.collect_metric self field labels = Ok false) /\
     (tentative = true -> ExportTag._filter_func self = None ->
      ExportTag.collect_metric self field labels = Ok true) /\
     (tentative = true ->
      ExportTag._filter_func self = Some ExportTag.DomainFilter ->
      forall stored, ExportTag.data self = Some stored ->
      exists b, ExportTag.collect_metric self field labels = Ok b /\
                (b = true <-> exists p, p ∈ stored /\ p ∈ labels))).
Proof.
  unfold ExportTag.collect_metric, Claimed.tentative. split.
  - by intros ->.
  - intros dflt ->. cbn zeta. repeat split.
    + by intros ->.
    + by intros -> ->.
    + intros -> -> stored ->. apply DomainFilter_spec.
Qed.

Lemma collect_metric_staged_witness :
  ExportTag.collect_metric
    (ExportTag.new "pools" "pool" None POOL_METRICS [] None None)
    "anything" [] = Ok true /\
  ExportTag.collect_metric
    (ExportTag.mk "t" "p" (Some true) ["a"] ["b"]
       None (Some (fun _ _ => Raise ValueError)) None)
    "b" [] = Ok false /\
  ExportTag.collect_metric
    (ExportTag.new "pools" "pool" (Some false) POOL_METRICS [] None None)
    "used_bytes" [] = Ok true /\
  exists b,
    ExportTag.collect_metric
      (ExportTag.mk "domains" "domain" (Some false) DOMAIN_METRICS []
         (Some ExportTag.DomainInit) (Some ExportTag.DomainFilter)
         (Some [("cell_name", Some "cellA")]))
      "thread_count" [("cell_name", Some "cellA")] = Ok b /\
    (b = true <->
     exists p, p ∈ [("cell_name", Some "cellA")]
               /\ p ∈ [("cell_name", Some "cellA")]).
Proof.
  split; [|split; [|split]].
  - exact (proj1 (collect_metric_staged
                    (ExportTag.new "pools" "pool" None POOL_METRICS [] None None)
                    "anything" []) eq_refl).
  - exact (proj1 (proj2 (collect_metric_staged
                           (ExportTag.mk "t" "p" (Some true) ["a"] ["b"]
                              None (Some (fun _ _ => Raise ValueError)) None)
                           "b" []) true eq_refl) eq_refl).
  - exact (proj1 (proj2 (proj2 (collect_metric_staged
                                  (ExportTag.new "pools" "pool" (Some false)
                                     POOL_METRICS [] None None)
                                  "used_bytes" []) false eq_refl))
             eq_refl eq_refl).
  - exact (proj2 (proj2 (proj2 (collect_metric_staged
                                  (ExportTag.mk "domains" "domain" (Some false)
                                     DOMAIN_METRICS []
                                     (Some ExportTag.DomainInit)
                                     (Some ExportTag.DomainFilter)
                                     (Some [("cell_name", Some "cellA")]))
                                  "thread_count" [("cell_name", Some "cellA")])
                                false eq_refl))
             eq_refl eq_refl _ eq_refl).
Defined.

Lemma DomainInit_spec (element : Element) :
  exists cells,
    ExportTag.DomainInit element = Ok cells /\
    forall p,
      p ∈ cells <->
      exists routing route cell,
        routing ∈ children element /\ get_short_tag routing = "routing" /\
        route ∈ children routing /\ get_short_tag route = "local" /\
        cell ∈ children route /\ get_short_tag cell = "cellref" /\
        p = ("cell_name", attrib_get "name" (attrib cell)).
Proof.
  eexists. split; [reflexivity|]. intros p.
  rewrite list_elem_of_In, in_flat_map. split.
  - intros (routing & Hrouting & H).
    destruct (String.eqb_spec (get_short_tag routing) "routing") as [Er|]; [|done].
    apply in_flat_map in H as (route & Hroute & H).
    destruct (String.eqb_spec (get_short_tag route) "local") as [El|]; [|done].
    apply in_flat_map in H as (cell & Hcell & H).
    destruct (String.eqb_spec (get_short_tag cell) "cellref") as [Ec|]; [|done].
    destruct H as [<-|[]].
    exists routing, route, cell. rewrite !list_elem_of_In. tauto.
  - intros (routing & route & cell & Hrouting & Er & Hroute & El & Hcell & Ec & ->).
    apply list_elem_of_In in Hrouting, Hroute, Hcell.
    exists routing. split; [done|]. rewrite Er, String.eqb_refl.
    apply in_flat_map. exists route. split; [done|]. rewrite El, String.eqb_refl.
    apply in_flat_map. exists cell. split; [done|]. rewrite Ec, String.eqb_refl.
    by left.
Qed.

(** C7: for the [domains] category, [collect_init] stores the pairs
    [("cell_name", name)] of the [cellref] nodes under [routing/local] of
    the member, and a field of the include list is then emitted exactly
    for the label sets that contain one of these pairs: with the single
    cell [cellA] stored, it is emitted under [cell_name=cellA] and not
    under [cell_name=cellB]. *)
Theorem domains_filter_by_cell (export : ExportTag.t) (member : Element) :
  export ∈ ExportTags ->
  ExportTag.name export = "domains" ->
  exists export' cells,
    ExportTag.collect_init export member = Ok export' /\
    ExportTag.data export' = Some cells /\
    (forall p,
       p ∈ cells <->
       exists routing route cell,
         routing ∈ children member /\ get_short_tag routing = "routing" /\
         route ∈ children routing /\ get_short_tag route = "local" /\
         cell ∈ children route /\ get_short_tag cell = "cellref" /\
         p = ("cell_name", attrib_get "name" (attrib cell))) /\
    (forall field labels,
       field ∈ ExportTag.include export ->
       exists b,
         ExportTag.collect_metric export' field labels = Ok b /\
         (b = true <-> exists p, p ∈ cells /\ p ∈ labels)) /\
    (cells = [("cell_name", Some "cellA")] ->
     forall field seed,
       field ∈ ExportTag.include export ->
       ("cell_name", Some "cellA") ∉ seed ->
       ExportTag.collect_metric export' field
         (seed ++ [("cell_name", Some "cellA")]) = Ok true /\
       ExportTag.collect_metric export' field
         (seed ++ [("cell_name", Some "cellB")]) = Ok false).
Proof.
  intros Hin Hname.
  assert (export = ExportTag.new "domains" "domain" (Some false) DOMAIN_METRICS []
                     (Some ExportTag.DomainInit) (Some ExportTag.DomainFilter))
    as ->.
  { unfold ExportTags in Hin.
    repeat (apply elem_of_cons in Hin as [->|Hin]; [try done|]).
    by apply elem_of_nil in Hin. }
  clear Hin Hname.
  destruct (DomainInit_spec member) as (cells & Hinit & Hcells).
  unfold ExportTag.collect_init, ExportTag.new. cbn [ExportTag._init_func].
  rewrite Hinit. cbn [rbind]. do 2 eexists. split; [reflexivity|].
  cbn [ExportTag.data ExportTag.name ExportTag.prefix ExportTag.default
       ExportTag.include ExportTag.exclude ExportTag._init_func
       ExportTag._filter_func].
  split; [reflexivity|]. split; [exact Hcells|].
  assert (forall field labels, field ∈ DOMAIN_METRICS ->
            ExportTag.collect_metric
              (ExportTag.mk "domains" "domain" (Some false) DOMAIN_METRICS []
                 (Some ExportTag.DomainInit) (Some ExportTag.DomainFilter)
                 (Some cells)) field labels
            = ExportTag.DomainFilter cells labels) as Hfilter.
  { intros field labels Hfield. unfold ExportTag.collect_metric.
    cbn [ExportTag.default ExportTag.include ExportTag.exclude
         ExportTag._filter_func ExportTag.data].
    by rewrite bool_decide_eq_true_2. }
  split.
  - intros field labels Hfield. rewrite (Hfilter _ _ Hfield).
    apply DomainFilter_spec.
  - intros -> field seed Hfield Hseed. rewrite !(Hfilter _ _ Hfield).
    unfold ExportTag.DomainFilter. cbn [existsb]. split; f_equal.
    + rewrite bool_decide_eq_true_2; [done|]. apply elem_of_app. right.
      by apply list_elem_of_singleton.
    + rewrite bool_decide_eq_false_2; [done|]. intros H.
      apply elem_of_app in H as [H|H]; [done|].
      by apply list_elem_of_singleton in H.
Qed.

(** ** C3: connection refused *)

(** C3: when the fetch fails because the connection is refused, the pass
    yields no family and no exception leaves [collect]. *)
Theorem collect_connection_refused (self : DcacheCollector.t) (net : Network) :
  connect net (_info_host self) (_info_port self) = Raise ConnectionRefusedError ->
  collect self net = ([], None).
Proof.
  intros H. unfold collect, _get_xml_tree. by rewrite H.
Qed.

Lemma collect_connection_refused_witness :
  connect Examples.refusing (_info_host Examples.self) (_info_port Examples.self)
  = Raise ConnectionRefusedError /\
  collect Examples.self Examples.refusing = ([], None).
Proof.
  split; [reflexivity|].
  apply (collect_connection_refused Examples.self Examples.refusing).
  reflexivity.
Defined.

(** ** C5 and C2: what a [metric] node records *)

(** The scale function of the transform table is the scaling by raw
    name. *)
Lemma transform_scale (raw name : string) (scale : number -> result number) :
  _metric_transform (Some raw) = Ok (name, scale) ->
  forall v, scale v = Claimed.scale raw v.
Proof.
  unfold _metric_transform, Claimed.scale. intros H v.
  destruct (bool_decide (raw ∈ BYTES_METRICS)) eqn:Hb.
  - simplify_eq. destruct (String.eqb_spec raw "last-heartbeat") as [->|]; [|done].
    by vm_compute in Hb.
  - destruct (String.eqb raw "last-heartbeat"); by simplify_eq.
Qed.

Lemma coerce_stripped_eq (ty txt : string) :
  ty ∈ ["float"; "integer"; "boolean"] ->
  (if bool_decide (Some ty = Some "boolean") then
     if String.eqb (Str.strip txt) "true" then Ok (PyInt 1) else Ok (PyInt 0)
   else if bool_decide (Some ty = Some "float") then
     rbind (Num.py_float txt) (fun f => Ok (PyFloat f))
   else rbind (Num.py_int txt) (fun z => Ok (PyInt z)))
  = Claimed.coerce_stripped ty txt.
Proof.
  intros H. unfold Claimed.coerce_stripped.
  repeat (apply elem_of_cons in H as [->|H]); [| | |by apply elem_of_nil in H].
  - reflexivity.
  - reflexivity.
  - cbn. by destruct (String.eqb _ _).
Qed.

(** A [metric] node that passes the filter and has one of the three
    types records the stripped-and-scaled value under the current
    labels. *)
Lemma observe_records t a txt kids export l L s raw ty name scale :
  heap s !! l = Some L ->
  attrib_get "name" a = Some raw ->
  attrib_get "type" a = Some ty ->
  ty ∈ ["float"; "integer"; "boolean"] ->
  _metric_transform (Some raw) = Ok (name, scale) ->
  ExportTag.collect_metric export name L = Ok true ->
  observe (Elem t a (Some txt) kids) export l s
  = (value <- lift (Claimed.value_stripped raw ty txt) ;;
     record ("dcache_" +:+ ExportTag.prefix export +:+ "_" +:+ name) L value) s.
Proof.
  intros Hl Hraw Hty Hin Htr Hok.
  rewrite (observe_emit _ _ _ _ _ Hl). unfold emit, bind, lift.
  cbn [attrib text]. rewrite Hraw, Hty, Htr, Hok.
  rewrite bool_decide_eq_true_2.
  2:{ repeat (apply elem_of_cons in Hin as [->|Hin]);
        [| | |by apply elem_of_nil in Hin]; set_solver. }
  rewrite (coerce_stripped_eq _ _ Hin). unfold Claimed.value_stripped.
  destruct (Claimed.coerce_stripped ty txt) as [v|e]; [|done].
  cbn [rbind]. by rewrite (transform_scale _ _ _ Htr).
Qed.

(** C5, as amended: the value a [metric] node records is the coercion of
    its leaf text followed by the scaling of the transform table.
    Boolean text that is [true] once surrounding white space is stripped
    gives 1 and any other boolean text 0; float text is read as a float
    and integer text as a whole number; the heartbeat field is then
    divided by 1000 and every other field, the byte-valued ones among
    them, is left as it is. The children are walked afterwards. *)
Theorem recorded_value_is_coerced_then_scaled
    t a txt kids export l L s raw ty name scale :
  get_short_tag (Elem t a (Some txt) kids) = "metric" ->
  heap s !! l = Some L ->
  attrib_get "name" a = Some raw ->
  attrib_get "type" a = Some ty ->
  ty ∈ ["float"; "integer"; "boolean"] ->
  _metric_transform (Some raw) = Ok (name, scale) ->
  ExportTag.collect_metric export name L = Ok true ->
  _collect_metric (Elem t a (Some txt) kids) export l s
  = ((value <- lift (Claimed.value_stripped raw ty txt) ;;
      record ("dcache_" +:+ ExportTag.prefix export +:+ "_" +:+ name) L value) >>
     for_child "metric" a export l kids) s /\
  (raw = "last-heartbeat" ->
   forall v, Claimed.scale raw v = Num.truediv v 1000) /\
  (raw ∈ BYTES_METRICS -> forall v, Claimed.scale raw v = Ok v).
Proof.
  intros Htag Hl Hraw Hty Hin Htr Hok. split; [|split].
  - rewrite _collect_metric_eq, Htag. cbn [String.eqb Ascii.eqb Bool.eqb].
    unfold bind at 1. symmetry. unfold bind at 1. symmetry.
    by rewrite (observe_records _ _ _ _ _ _ _ _ _ _ _ _ Hl Hraw Hty Hin Htr Hok).
  - by intros ->.
  - intros Hb v. unfold Claimed.scale.
    destruct (String.eqb_spec raw "last-heartbeat") as [->|]; [|done].
    by vm_compute in Hb.
Qed.

(** C2, as amended: an observation for a metric name whose family exists
    already is appended to that family without any check, whether or not
    its label names are those the family was created with; the family
    keeps its label names, the new sample pairs them with the label
    values of the observation position by position, and nothing is
    raised. *)
Theorem observation_joins_existing_family
    t a txt kids export l L s raw ty name scale value fam :
  get_short_tag (Elem t a (Some txt) kids) = "metric" ->
  heap s !! l = Some L ->
  attrib_get "name" a = Some raw ->
  attrib_get "type" a = Some ty ->
  ty ∈ ["float"; "integer"; "boolean"] ->
  _metric_transform (Some raw) = Ok (name, scale) ->
  ExportTag.collect_metric export name L = Ok true ->
  Claimed.value_stripped raw ty txt = Ok value ->
  _metrics s !! ("dcache_" +:+ ExportTag.prefix export +:+ "_" +:+ name) = Some fam ->
  _collect_metric (Elem t a (Some txt) kids) export l s
  = for_child "metric" a export l kids
      (mkState (heap s)
         (<["dcache_" +:+ ExportTag.prefix export +:+ "_" +:+ name :=
              mkFamily (family_name fam) (_labelnames fam)
                (samples fam ++
                 [mkSample (family_name fam)
                    (dict_zip (_labelnames fam) (label_values L)) value])]>
            (_metrics s))).
Proof.
  intros Htag Hl Hraw Hty Hin Htr Hok Hval Hfam.
  rewrite _collect_metric_eq, Htag. cbn [String.eqb Ascii.eqb Bool.eqb].
  unfold bind at 1.
  rewrite (observe_records _ _ _ _ _ _ _ _ _ _ _ _ Hl Hraw Hty Hin Htr Hok).
  unfold bind, lift. rewrite Hval. unfold record, recorded. by rewrite Hfam.
Qed.

(** ** C1: one pool, one value *)

Lemma bind_ret_tt (m : M unit) s : (m >> ret tt) s = m s.
Proof. unfold bind, ret. by destruct (m s) as [[[] s']|e]. Qed.

Lemma refines_Ok (c v : M unit) s m' :
  refines c v s ->
  v (mkState [] (_metrics s)) = Ok (tt, mkState [] m') ->
  exists s', c s = Ok (tt, s') /\ _metrics s' = m'.
Proof.
  intros R Hv. specialize (R []). destruct (c s) as [[[] s']|e].
  - destruct R as [_ R]. rewrite R in Hv. exists s'. split; [done|]. by simplify_eq.
  - by rewrite R in Hv.
Qed.

Lemma emit_records t a txt kids export L s raw ty name scale :
  attrib_get "name" a = Some raw ->
  attrib_get "type" a = Some ty ->
  ty ∈ ["float"; "integer"; "boolean"] ->
  _metric_transform (Some raw) = Ok (name, scale) ->
  ExportTag.collect_metric export name L = Ok true ->
  emit (Elem t a (Some txt) kids) export L s
  = (value <- lift (Claimed.value_stripped raw ty txt) ;;
     record ("dcache_" +:+ ExportTag.prefix export +:+ "_" +:+ name) L value) s.
Proof.
  intros Hraw Hty Hin Htr Hok.
  pose proof (observe_records t a txt kids export 0 L
                (mkState (L :: heap s) (_metrics s)) raw ty name scale
                eq_refl Hraw Hty Hin Htr Hok) as H.
  rewrite (observe_emit _ _ _ L) in H by done.
  destruct s as [h m]. cbn [heap _metrics] in H.
  unfold bind, lift, record in *. cbn [heap _metrics] in *.
  destruct (heap_blind_emit (Elem t a (Some txt) kids) export L m)
    as [[m' Hm]|[e He]].
  - rewrite Hm in *. destruct (Claimed.value_stripped raw ty txt); by simplify_eq.
  - rewrite He in *. by destruct (Claimed.value_stripped raw ty txt).
Qed.

Lemma walk_nest wrappers inner export L s :
  Forall structural wrappers ->
  ByValue.walk (nest wrappers inner) export L s = ByValue.walk inner export L s.
Proof.
  intros Hw. revert s. induction Hw as [|[t x] ws [Hm Hp] _ IH]; intros s; [done|].
  cbn [nest]. rewrite walk_eq.
  assert (get_short_tag (Elem t [] x [nest ws inner]) = get_short_tag (Elem t [] x []))
    as -> by done.
  cbn [fst snd] in Hm, Hp.
  apply String.eqb_neq in Hm, Hp. rewrite Hm, Hp.
  unfold bind at 1. cbn [ret ByValue.each]. unfold attrib_labels. cbn [List.map].
  rewrite app_nil_r, bind_ret_tt. apply IH.
Qed.

Lemma eqb_append_prefix (p a b : string) :
  String.eqb (p +:+ a) (p +:+ b) = String.eqb a b.
Proof.
  induction p as [|c p IH]; [done|].
  rewrite !append_cons. cbn [String.eqb]. by rewrite Ascii.eqb_refl.
Qed.

Lemma findall_only_child (rtag : string) rattrs rtext ns (name other : string)
    cattrs ctext members :
  findall (Elem rtag rattrs rtext [Elem (ns +:+ name) cattrs ctext members])
    (ns +:+ other)
  = if String.eqb name other
    then [Elem (ns +:+ name) cattrs ctext members] else [].
Proof.
  unfold findall. cbn [children filter list_filter tag].
  destruct (decide _) as [H|H]; rewrite eqb_append_prefix in H;
    destruct (String.eqb name other); done.
Qed.

(** The pass over a snapshot whose only container is [pools], holding one
    member named [pool1@qualifier] with one integer value node
    [used-bytes] of text [1024] below a chain of elements without
    attributes. *)
Lemma pass_single_pool (self : DcacheCollector.t) (net : Network)
    rtag rattrs rtext ns cattrs ctext mtag mattrs mtext wrappers vtag vattrs :
  connect net (_info_host self) (_info_port self) = Ok tt ->
  document net
  = Ok (Elem rtag rattrs rtext
          [Elem (ns +:+ "pools") cattrs ctext
             [Elem mtag mattrs mtext
                [nest wrappers (Elem vtag vattrs (Some "1024") [])]]]) ->
  get_namespace (Elem rtag [] None []) = Ok ns ->
  get_short_tag (Elem mtag [] None []) <> "linkgroup" ->
  attrib_get "name" mattrs = Some "pool1@qualifier" ->
  Forall structural wrappers ->
  get_short_tag (Elem vtag [] None []) = "metric" ->
  attrib_get "type" vattrs = Some "integer" ->
  attrib_get "name" vattrs = Some "used-bytes" ->
  collect self net
  = ([mkFamily "dcache_pool_used_bytes" ["dcache_cluster"; "pool"]
        [mkSample "dcache_pool_used_bytes"
           (<["pool" := Some "pool1"]>
              {["dcache_cluster" := Some (_cluster self)]})
           (PyInt 1024)]],
     None).
Proof.
  intros Hconn Hdoc Hns Hmtag Hname Hw Hvtag Hty Hraw.
  set (L := [("dcache_cluster", Some (_cluster self)); ("pool", Some "pool1")]).
  set (value := Elem vtag vattrs (Some "1024") []).
  set (pools := ExportTag.new "pools" "pool" (Some false) POOL_METRICS [] None None).
  set (after := recorded ∅ "dcache_pool_used_bytes" L (PyInt 1024)).
  (* the value node, labels by value *)
  assert (forall s, ByValue.walk (nest wrappers value) pools L s
                    = Ok (tt, mkState (heap s)
                                (recorded (_metrics s) "dcache_pool_used_bytes" L
                                   (PyInt 1024)))) as Hvalue.
  { intros s. rewrite (walk_nest _ _ _ _ _ Hw). unfold value. rewrite walk_eq.
    assert (get_short_tag (Elem vtag vattrs (Some "1024") []) = "metric") as ->
      by exact Hvtag.
    cbn [String.eqb Ascii.eqb Bool.eqb ByValue.each]. rewrite bind_ret_tt.
    rewrite (emit_records vtag vattrs "1024" [] pools L s "used-bytes" "integer"
               "used_bytes" (fun x => Ok x) Hraw Hty); [done|set_solver|done|done]. }
  (* the member *)
  assert (exists h, _collect_metrics_set self
            (Elem mtag mattrs mtext [nest wrappers value]) pools (mkState [] ∅)
          = Ok (pools, mkState h after)) as [h Hmember].
  { unfold _collect_metrics_set, bind, lift. cbn [ExportTag.collect_init
      ExportTag._init_func pools ExportTag.new rbind attrib children].
    assert (get_short_tag (Elem mtag mattrs mtext [nest wrappers value])
            = get_short_tag (Elem mtag [] None [])) as -> by done.
    apply String.eqb_neq in Hmtag. rewrite Hmtag, Hname.
    cbn [Str.contains Ascii.eqb Bool.eqb Str.before_first new_list heap
         _metrics length ExportTag.prefix for_member_child app].
    fold pools. fold L.
    destruct (refines_Ok _ _ (mkState [L] ∅) after
                (walk_refines (nest wrappers value) pools 0 L
                   (mkState [L] ∅) eq_refl))
      as (s' & Hs' & Hm').
    { cbn [_metrics]. by rewrite Hvalue. }
    unfold bind.
    change [("dcache_cluster", Some (_cluster self));
            (ExportTag.prefix pools, Some "pool1")] with L.
    rewrite Hs'. cbn [ret]. exists (heap s').
    destruct s' as [h' m']. cbn [_metrics heap] in *. by subst. }
  unfold collect, _get_xml_tree. rewrite Hconn, Hdoc. cbn [rbind]. fold value.
  assert (get_namespace (Elem rtag rattrs rtext
            [Elem (ns +:+ "pools") cattrs ctext
               [Elem mtag mattrs mtext [nest wrappers value]]])
          = get_namespace (Elem rtag [] None [])) as -> by done.
  rewrite Hns. cbn [rbind].
  unfold _collect_all_metrics, ExportTags.
  cbn [for_export ExportTag.name ExportTag.new].
  rewrite !findall_only_child.
  cbn [String.eqb Ascii.eqb Bool.eqb children for_member].
  unfold bind. cbn [ret]. fold pools. rewrite Hmember. cbn [rbind _metrics].
  unfold after, recorded, L. vm_compute. reflexivity.
Qed.

(** The labels a member starts with, read off the list that
    [_collect_metrics_set] creates for a member without children. *)
Lemma member_seed (self : DcacheCollector.t) (export : ExportTag.t)
    mtag mattrs mtext s :
  ExportTag._init_func export = None ->
  _collect_metrics_set self (Elem mtag mattrs mtext []) export s
  = if String.eqb (get_short_tag (Elem mtag [] None [])) "linkgroup" then
      Ok (export,
          mkState (heap s ++ [[("dcache_cluster", Some (_cluster self));
                               (ExportTag.prefix export, attrib_get "lgid" mattrs)]])
            (_metrics s))
    else
      match attrib_get "name" mattrs with
      | Some name =>
          Ok (export,
              mkState (heap s ++ [[("dcache_cluster", Some (_cluster self));
                                   (ExportTag.prefix export,
                                    Some (Str.before_first "@" name))]])
                (_metrics s))
      | None => Raise TypeError
      end.
Proof.
  intros Hinit. unfold _collect_metrics_set, bind, lift, ExportTag.collect_init.
  rewrite Hinit. cbn [attrib children].
  assert (get_short_tag (Elem mtag mattrs mtext [])
          = get_short_tag (Elem mtag [] None [])) as -> by done.
  destruct (String.eqb _ "linkgroup"); [done|].
  destruct (attrib_get "name" mattrs) as [name|]; [|done].
  assert (Str.contains "@" name = false -> Str.before_first "@" name = name) as Hno.
  { induction name as [|c name IH]; [done|]. cbn.
    destruct (Ascii.eqb c "@"); [done|]. intros H. by rewrite IH. }
  destruct (Str.contains "@" name) eqn:Hat; [done|].
  cbn [for_member_child ret new_list]. by rewrite Hno.
Qed.

(** C1: a snapshot whose only container is [pools], holding one member
    named [pool1@qualifier], inside which, below any chain of elements
    without attributes, sits one value node of type integer, field
    [used-bytes] and text [1024]: the pass emits exactly the family
    [dcache_pool_used_bytes], whose single observation has the labels
    [dcache_cluster] = the configured cluster and [pool] = [pool1], and
    the value 1024. The identity label of a member is its [name] up to the
    first [@]; for a member tagged [linkgroup] it is the [lgid] attribute
    as it stands. *)
Theorem single_pool_used_bytes (self : DcacheCollector.t) (net : Network)
    rtag rattrs rtext ns cattrs ctext mtag mattrs mtext wrappers vtag vattrs :
  (connect net (_info_host self) (_info_port self) = Ok tt ->
   document net
   = Ok (Elem rtag rattrs rtext
           [Elem (ns +:+ "pools") cattrs ctext
              [Elem mtag mattrs mtext
                 [nest wrappers (Elem vtag vattrs (Some "1024") [])]]]) ->
   get_namespace (Elem rtag [] None []) = Ok ns ->
   get_short_tag (Elem mtag [] None []) <> "linkgroup" ->
   attrib_get "name" mattrs = Some "pool1@qualifier" ->
   Forall structural wrappers ->
   get_short_tag (Elem vtag [] None []) = "metric" ->
   attrib_get "type" vattrs = Some "integer" ->
   attrib_get "name" vattrs = Some "used-bytes" ->
   collect self net
   = ([mkFamily "dcache_pool_used_bytes" ["dcache_cluster"; "pool"]
         [mkSample "dcache_pool_used_bytes"
            (<["pool" := Some "pool1"]>
               {["dcache_cluster" := Some (_cluster self)]})
            (PyInt 1024)]],
      None)) /\
  (forall export s lgid,
     export ∈ ExportTags ->
     ExportTag.name export <> "domains" ->
     get_short_tag (Elem mtag [] None []) = "linkgroup" ->
     attrib_get "lgid" mattrs = Some lgid ->
     _collect_metrics_set self (Elem mtag mattrs mtext []) export s
     = Ok (export,
           mkState (heap s ++ [[("dcache_cluster", Some (_cluster self));
                                (ExportTag.prefix export, Some lgid)]])
             (_metrics s))).
Proof.
  split.
  - apply pass_single_pool.
  - intros export s lgid Hin Hname Htag Hlgid.
    rewrite member_seed, Htag, Hlgid; [done|].
    unfold ExportTags in Hin.
    repeat (apply elem_of_cons in Hin as [->|Hin]; [try done|]).
    by apply elem_of_nil in Hin.
Qed.

(** ** The theorems at sample documents *)

Lemma single_pool_used_bytes_witness :
  get_namespace (Elem (Examples.ns +:+ "dCache") [] None []) = Ok Examples.ns /\
  Forall structural [(Examples.ns +:+ "space", None)] /\
  collect Examples.self (Examples.serving Examples.one_pool)
  = ([mkFamily "dcache_pool_used_bytes" ["dcache_cluster"; "pool"]
        [mkSample "dcache_pool_used_bytes"
           (<["pool" := Some "pool1"]> {["dcache_cluster" := Some "prod"]})
           (PyInt 1024)]],
     None) /\
  Examples.linkgroups_tag ∈ ExportTags /\
  _collect_metrics_set Examples.self
    (Examples.el "linkgroup" [("lgid", "7@x")] None [])
    Examples.linkgroups_tag (mkState [] ∅)
  = Ok (Examples.linkgroups_tag,
        mkState [[("dcache_cluster", Some "prod"); ("linkgroup", Some "7@x")]] ∅).
Proof.
  assert (Forall structural [(Examples.ns +:+ "space", None)]) as Hw.
  { repeat constructor; vm_compute; discriminate. }
  assert (Examples.linkgroups_tag ∈ ExportTags) as Hin.
  { apply list_elem_of_In. vm_compute. tauto. }
  split; [reflexivity|]. split; [exact Hw|]. split; [|split; [exact Hin|]].
  - apply (proj1 (single_pool_used_bytes Examples.self
                    (Examples.serving Examples.one_pool)
                    (Examples.ns +:+ "dCache") [] None Examples.ns [] None
                    (Examples.ns +:+ "pool") [("name", "pool1@qualifier")] None
                    [(Examples.ns +:+ "space", None)]
                    (Examples.ns +:+ "metric")
                    [("name", "used-bytes"); ("type", "integer")])).
    + reflexivity.
    + reflexivity.
    + reflexivity.
    + vm_compute. discriminate.
    + reflexivity.
    + exact Hw.
    + reflexivity.
    + reflexivity.
    + reflexivity.
  - apply (proj2 (single_pool_used_bytes Examples.self
                    (Examples.serving Examples.one_pool)
                    (Examples.ns +:+ "dCache") [] None Examples.ns [] None
                    (Examples.ns +:+ "linkgroup") [("lgid", "7@x")] None
                    [] (Examples.ns +:+ "metric") [])
             Examples.linkgroups_tag (mkState [] ∅) "7@x" Hin).
    + vm_compute. discriminate.
    + reflexivity.
    + reflexivity.
Defined.

Lemma poolref_records_relation_witness :
  get_short_tag Examples.poolref = "poolref" /\
  _collect_metric Examples.poolref Examples.poolgroups_tag 0
    (mkState [[("dcache_cluster", Some "prod"); ("poolgroup", Some "default")]] ∅)
  = Ok (tt,
        mkState
          [[("dcache_cluster", Some "prod"); ("poolgroup", Some "default")];
           [("dcache_cluster", Some "prod"); ("poolgroup", Some "default");
            ("pool", Some "pool1")]]
          {["dcache_poolgroup_pool_rel" :=
              mkFamily "dcache_poolgroup_pool_rel"
                ["dcache_cluster"; "poolgroup"; "pool"]
                [mkSample "dcache_poolgroup_pool_rel"
                   (<["pool" := Some "pool1"]>
                      (<["poolgroup" := Some "default"]>
                         {["dcache_cluster" := Some "prod"]}))
                   (PyInt 1)]]}).
Proof.
  split; [reflexivity|].
  etrans.
  - apply (proj1 (poolref_records_relation
                    (Examples.ns +:+ "poolref") [("name", "pool1")] None
                    [Examples.used_bytes] Examples.poolgroups_tag 0
                    [("dcache_cluster", Some "prod"); ("poolgroup", Some "default")]
                    (mkState [[("dcache_cluster", Some "prod");
                               ("poolgroup", Some "default")]] ∅)
                    eq_refl eq_refl)).
  - vm_compute. reflexivity.
Defined.

Lemma walk_keeps_caller_labels_witness :
  let s := mkState [Examples.pool1] ∅ in
  heap s !! 0%nat = Some Examples.pool1 /\
  get_short_tag Examples.heartbeat <> "poolref" /\
  match _collect_metric Examples.heartbeat Examples.pools_tag 0 s with
  | Ok (_, s') =>
      (forall l0 L0, heap s !! l0 = Some L0 -> heap s' !! l0 = Some L0) /\
      ByValue.outcome
        (ByValue.walk Examples.heartbeat Examples.pools_tag Examples.pool1 s)
      = Ok (tt, _metrics s')
  | Raise e =>
      ByValue.walk Examples.heartbeat Examples.pools_tag Examples.pool1 s
      = Raise e
  end /\
  _collect_metric Examples.heartbeat Examples.pools_tag 0 s
  = (observe Examples.heartbeat Examples.pools_tag 0 >>
     for_each [Examples.el "note" [] None []]
       (fun child =>
          l' <- new_list
                  (Examples.pool1 ++
                   [("metric_name", Some "last-heartbeat");
                    ("metric_type", Some "integer")]) ;;
          _collect_metric child Examples.pools_tag l')) s.
Proof.
  assert (get_short_tag Examples.heartbeat <> "poolref") as Htag
    by (vm_compute; discriminate).
  split; [reflexivity|]. split; [exact Htag|].
  destruct (walk_keeps_caller_labels
              (Examples.ns +:+ "metric")
              [("name", "last-heartbeat"); ("type", "integer")]
              (Some "1500") [Examples.el "note" [] None []]
              Examples.pools_tag 0 Examples.pool1
              (mkState [Examples.pool1] ∅) eq_refl) as [Hwalk Hkids].
  split; [exact Hwalk|]. exact (Hkids Htag).
Defined.

Lemma metric_node_recurses_witness :
  let s := mkState [Examples.pool1] ∅ in
  get_short_tag Examples.heartbeat = "metric" /\
  heap s !! 0%nat = Some Examples.pool1 /\
  _collect_metric Examples.heartbeat Examples.pools_tag 0 s
  = (observe Examples.heartbeat Examples.pools_tag 0 >>
     for_each [Examples.el "note" [] None []]
       (fun child =>
          l' <- new_list
                  (Examples.pool1 ++
                   [("metric_name", Some "last-heartbeat");
                    ("metric_type", Some "integer")]) ;;
          _collect_metric child Examples.pools_tag l')) s /\
  get_short_tag Examples.poolref = "poolref" /\
  _collect_metric Examples.poolref Examples.poolgroups_tag 0 s
  = _collect_metric (Examples.el "poolref" [("name", "pool1")] None [])
      Examples.poolgroups_tag 0 s.
Proof.
  split; [reflexivity|]. split; [reflexivity|]. split.
  - apply (proj1 (metric_node_recurses
                    (Examples.ns +:+ "metric")
                    [("name", "last-heartbeat"); ("type", "integer")]
                    (Some "1500") [Examples.el "note" [] None []]
                    Examples.pools_tag 0 Examples.pool1
                    (mkState [Examples.pool1] ∅)));
      reflexivity.
  - split; [reflexivity|].
    apply (proj2 (metric_node_recurses
                    (Examples.ns +:+ "poolref") [("name", "pool1")] None
                    [Examples.used_bytes] Examples.poolgroups_tag 0
                    Examples.pool1 (mkState [Examples.pool1] ∅))).
    reflexivity.
Defined.

Lemma domains_filter_by_cell_witness :
  Examples.domains_tag ∈ ExportTags /\
  ExportTag.name Examples.domains_tag = "domains" /\
  exists export',
    ExportTag.collect_init Examples.domains_tag Examples.domain = Ok export' /\
    ExportTag.data export' = Some [("cell_name", Some "cellA")] /\
    ExportTag.collect_metric export' "thread_count"
      [("dcache_cluster", Some "prod"); ("domain", Some "dCacheDomain");
       ("cell_name", Some "cellA")] = Ok true /\
    ExportTag.collect_metric export' "thread_count"
      [("dcache_cluster", Some "prod"); ("domain", Some "dCacheDomain");
       ("cell_name", Some "cellB")] = Ok false.
Proof.
  assert (Examples.domains_tag ∈ ExportTags) as Hin.
  { apply list_elem_of_In. vm_compute. tauto. }
  split; [exact Hin|]. split; [reflexivity|].
  destruct (domains_filter_by_cell Examples.domains_tag Examples.domain
              Hin eq_refl)
    as (export' & cells & Hinit & Hdata & _ & _ & Hcell).
  exists export'. split; [exact Hinit|].
  assert (cells = [("cell_name", Some "cellA")]) as Hcells.
  { vm_compute in Hinit. injection Hinit as <-.
    cbn in Hdata. by injection Hdata as <-. }
  split; [by rewrite Hdata, Hcells|].
  apply (Hcell Hcells "thread_count"
           [("dcache_cluster", Some "prod"); ("domain", Some "dCacheDomain")]).
  - apply list_elem_of_In. vm_compute. tauto.
  - intros H. apply list_elem_of_In in H. vm_compute in H.
    destruct H as [H|[H|[]]]; discriminate.
Defined.

Lemma recorded_value_is_coerced_then_scaled_witness :
  let s := mkState [Examples.pool1] ∅ in
  get_short_tag Examples.heartbeat = "metric" /\
  _metric_transform (Some "last-heartbeat")
  = Ok ("heartbeat_seconds", fun x => Num.truediv x 1000) /\
  ExportTag.collect_metric Examples.pools_tag "heartbeat_seconds" Examples.pool1
  = Ok true /\
  Claimed.value_stripped "last-heartbeat" "integer" "1500" = Ok (PyFloat 1.5) /\
  _collect_metric Examples.heartbeat Examples.pools_tag 0 s
  = ((value <- lift (Claimed.value_stripped "last-heartbeat" "integer" "1500") ;;
      record "dcache_pool_heartbeat_seconds" Examples.pool1 value) >>
     for_child "metric" [("name", "last-heartbeat"); ("type", "integer")]
       Examples.pools_tag 0 [Examples.el "note" [] None []]) s /\
  (forall v, Claimed.scale "last-heartbeat" v = Num.truediv v 1000) /\
  "used" ∈ BYTES_METRICS /\
  Claimed.value_stripped "used" "integer" "2048" = Ok (PyInt 2048) /\
  (forall v, Claimed.scale "used" v = Ok v).
Proof.
  assert ("used" ∈ BYTES_METRICS) as Hused by (vm_compute; reflexivity).
  split; [reflexivity|]. split; [reflexivity|]. split; [reflexivity|].
  split; [reflexivity|].
  destruct (recorded_value_is_coerced_then_scaled
              (Examples.ns +:+ "metric")
              [("name", "last-heartbeat"); ("type", "integer")]
              "1500" [Examples.el "note" [] None []]
              Examples.pools_tag 0 Examples.pool1
              (mkState [Examples.pool1] ∅)
              "last-heartbeat" "integer" "heartbeat_seconds"
              (fun x => Num.truediv x 1000)
              eq_refl eq_refl eq_refl eq_refl
              ltac:(apply list_elem_of_In; vm_compute; tauto)
              eq_refl eq_refl) as (Hwalk & Hbeat & _).
  destruct (recorded_value_is_coerced_then_scaled
              (Examples.ns +:+ "metric") [("name", "used"); ("type", "integer")]
              "2048" [] Examples.pools_tag 0 Examples.pool1
              (mkState [Examples.pool1] ∅)
              "used" "integer" "used_bytes" (fun x => Ok x)
              eq_refl eq_refl eq_refl eq_refl
              ltac:(apply list_elem_of_In; vm_compute; tauto)
              eq_refl eq_refl) as (_ & _ & Hbytes).
  split; [exact Hwalk|]. split; [exact (Hbeat eq_refl)|].
  split; [exact Hused|]. split; [reflexivity|]. exact (Hbytes Hused).
Defined.

(** C5 as stated fails on a boolean whose text is [true] with a blank in
    front: the claim's coercion, which compares the text itself with
    [true], gives 0, and the walker records 1. *)
Lemma boolean_text_is_stripped_counterexample :
  let s := mkState [Examples.pool1] ∅ in
  " true" <> "true" /\
  Claimed.value "enabled" "boolean" " true" = Ok (PyInt 0) /\
  _collect_metric Examples.padded_true Examples.pools_tag 0 s
  = Ok (tt,
        mkState [Examples.pool1]
          {["dcache_pool_enabled" :=
              mkFamily "dcache_pool_enabled" ["dcache_cluster"; "pool"]
                [mkSample "dcache_pool_enabled"
                   (<["pool" := Some "pool1"]> {["dcache_cluster" := Some "prod"]})
                   (PyInt 1)]]}) /\
  _collect_metric Examples.padded_true Examples.pools_tag 0 s
  <> (value <- lift (Claimed.value "enabled" "boolean" " true") ;;
      record "dcache_pool_enabled" Examples.pool1 value) s.
Proof.
  split; [discriminate|]. split; [reflexivity|].
  split; [vm_compute; reflexivity|].
  vm_compute. discriminate.
Qed.

Lemma observation_joins_existing_family_witness :
  let L := Examples.pool1 ++ [("queue_name", Some "q1")] in
  let fam := mkFamily "dcache_pool_active" ["dcache_cluster"; "pool"]
               [mkSample "dcache_pool_active"
                  (<["pool" := Some "pool1"]> {["dcache_cluster" := Some "prod"]})
                  (PyInt 3)] in
  let s := mkState [L] {["dcache_pool_active" := fam]} in
  _labelnames fam <> label_names L /\
  ExportTag.collect_metric Examples.pools_tag "active" L = Ok true /\
  Claimed.value_stripped "active" "integer" "5" = Ok (PyInt 5) /\
  _collect_metric
    (Examples.el "metric" [("name", "active"); ("type", "integer")] (Some "5") [])
    Examples.pools_tag 0 s
  = Ok (tt,
        mkState [L]
          {["dcache_pool_active" :=
              mkFamily "dcache_pool_active" ["dcache_cluster"; "pool"]
                [mkSample "dcache_pool_active"
                   (<["pool" := Some "pool1"]> {["dcache_cluster" := Some "prod"]})
                   (PyInt 3);
                 mkSample "dcache_pool_active"
                   (<["pool" := Some "pool1"]> {["dcache_cluster" := Some "prod"]})
                   (PyInt 5)]]}).
Proof.
  split; [discriminate|]. split; [reflexivity|]. split; [reflexivity|].
  etrans.
  - apply (observation_joins_existing_family
             (Examples.ns +:+ "metric") [("name", "active"); ("type", "integer")]
             "5" [] Examples.pools_tag 0
             (Examples.pool1 ++ [("queue_name", Some "q1")])
             (mkState [Examples.pool1 ++ [("queue_name", Some "q1")]]
                {["dcache_pool_active" :=
                    mkFamily "dcache_pool_active" ["dcache_cluster"; "pool"]
                      [mkSample "dcache_pool_active"
                         (<["pool" := Some "pool1"]>
                            {["dcache_cluster" := Some "prod"]})
                         (PyInt 3)]]})
             "active" "integer" "active" (fun x => Ok x) (PyInt 5)
             (mkFamily "dcache_pool_active" ["dcache_cluster"; "pool"]
                [mkSample "dcache_pool_active"
                   (<["pool" := Some "pool1"]> {["dcache_cluster" := Some "prod"]})
                   (PyInt 3)])
             eq_refl eq_refl eq_refl eq_refl
             ltac:(apply list_elem_of_In; vm_compute; tauto)
             eq_refl eq_refl eq_refl).
    vm_compute. reflexivity.
  - vm_compute. reflexivity.
Defined.

(** C2 as stated fails on a pool whose field [active] occurs at two
    depths: the second observation comes with the label names
    [dcache_cluster], [pool], [queue_name] while the family was created
    with [dcache_cluster], [pool]; the pass raises nothing and yields the
    family with both samples, the label [queue_name] of the second
    dropped. *)
Lemma label_schema_mismatch_counterexample :
  label_names (Examples.pool1 ++ [("queue_name", Some "q1")])
  <> ["dcache_cluster"; "pool"] /\
  collect Examples.self (Examples.serving Examples.two_depths)
  = ([mkFamily "dcache_pool_active" ["dcache_cluster"; "pool"]
        [mkSample "dcache_pool_active"
           (<["pool" := Some "pool1"]> {["dcache_cluster" := Some "prod"]})
           (PyInt 3);
         mkSample "dcache_pool_active"
           (<["pool" := Some "pool1"]> {["dcache_cluster" := Some "prod"]})
           (PyInt 5)]],
     None).
Proof.
  split; [discriminate|]. vm_compute. reflexivity.
Qed.

(** The filter of the [domains] category through a whole pass: of the
    two cells of the sample domain only the routed [cellA] is emitted. *)
Lemma domain_cells_pass :
  collect Examples.self
    (Examples.serving
       (Examples.el "dCache" [] None
          [Examples.el "domains" [] None [Examples.domain]]))
  = ([mkFamily "dcache_domain_thread_count"
        ["dcache_cluster"; "domain"; "cell_name"]
        [mkSample "dcache_domain_thread_count"
           (<["cell_name" := Some "cellA"]>
              (<["domain" := Some "dCacheDomain"]>
                 {["dcache_cluster" := Some "prod"]}))
           (PyInt 4)]],
     None).
Proof. vm_compute. reflexivity. Qed.

(** * Further properties of the code *)

(** ** What one [metric] node can do *)

Lemma emit_cases element export L s :
  (exists x, emit element export L s = Raise x) \/
  emit element export L s = Ok (tt, s) \/
  (exists field v,
     ExportTag.collect_metric export field L = Ok true /\
     emit element export L s
     = Ok (tt, mkState (heap s)
                 (recorded (_metrics s)
                    ("dcache_" +:+ ExportTag.prefix export +:+ "_" +:+ field)
                    L v))).
Proof.
  unfold emit, bind, lift.
  destruct (_metric_transform _) as [[field transform]|e]; [|left; by exists e].
  destruct (ExportTag.collect_metric _ _ _) as [[]|e] eqn:Hok;
    [| right; by left | left; by exists e].
  destruct (bool_decide (_ ∈ _)); [|right; by left].
  match goal with
  | |- context [match (match ?v with Ok _ => _ | Raise _ => _ end) with
                | Ok _ => _ | Raise _ => _ end] =>
      destruct v as [value|e]
  end; [|left; by exists e].
  destruct (transform value) as [scaled|e]; [|left; by exists e].
  right. right. exists field, scaled. by split.
Qed.

(** ** A property of the families carried through a walk *)

Section Carried.

Variable I : gmap string GaugeMetricFamily -> Prop.
Variable E : exn -> Prop.
Variable export : ExportTag.t.
Variable seed : list label.

Hypothesis record_keeps :
  forall m field L v,
    I m -> seed `prefix_of` L -> may_record export field ->
    I (recorded m ("dcache_" +:+ ExportTag.prefix export +:+ "_" +:+ field) L v).

Hypothesis emit_raises :
  forall element L s x, emit element export L s = Raise x -> E x.

Lemma emit_carries element L s :
  seed `prefix_of` L -> I (_metrics s) ->
  post I E (emit element export L s).
Proof.
  intros Hseed HI.
  destruct (emit_cases element export L s) as [[x Hx]|[H|(f & v & Hok & H)]].
  - rewrite Hx. cbn. by eapply emit_raises.
  - by rewrite H.
  - rewrite H. cbn. apply record_keeps; [done|done|]. right. by exists L.
Qed.

Lemma walk_carries element :
  forall L s,
    seed `prefix_of` L -> I (_metrics s) ->
    post I E (ByValue.walk element export L s).
Proof.
  induction element as [t a x kids IH] using Element_tree_ind.
  intros L s Hseed HI. rewrite walk_eq.
  generalize (get_short_tag (Elem t a x kids)) as tg. intros tg.
  unfold bind at 1.
  set (first := if String.eqb tg "metric"
                then emit (Elem t a x kids) export L else ret tt).
  assert (post I E (first s)) as Hfirst.
  { subst first. destruct (String.eqb tg "metric");
      [by apply emit_carries|done]. }
  destruct (first s) as [[[] s1]|e]; [|exact Hfirst].
  cbn [post] in Hfirst. clear first HI.
  destruct (String.eqb tg "poolref").
  - cbn. apply record_keeps; [done| |by left].
    by apply prefix_app_r.
  - revert s1 Hfirst.
    induction IH as [|k kids Hk _ IHkids]; intros s1 HI; [done|].
    cbn [ByValue.each]. unfold bind.
    assert (seed `prefix_of` L ++ attrib_labels tg a) as Hseed'
      by by apply prefix_app_r.
    specialize (Hk _ s1 Hseed' HI).
    destruct (ByValue.walk k export _ s1) as [[[] s2]|e]; [|exact Hk].
    apply IHkids. exact Hk.
Qed.

Lemma collect_metric_carries element l L s :
  heap s !! l = Some L ->
  seed `prefix_of` L -> I (_metrics s) ->
  post I E (_collect_metric element export l s).
Proof.
  intros Hl Hseed HI.
  pose proof (walk_refines element export l L s Hl (heap s)) as R.
  pose proof (walk_carries element L (mkState (heap s) (_metrics s)) Hseed HI)
    as W.
  destruct (_collect_metric element export l s) as [[[] s']|e].
  - destruct R as [_ R]. by rewrite R in W.
  - by rewrite R in W.
Qed.

Lemma for_member_child_carries kids :
  forall l L s,
    heap s !! l = Some L ->
    seed `prefix_of` L -> I (_metrics s) ->
    post I E (for_member_child export l kids s).
Proof.
  induction kids as [|k kids IH]; intros l L s Hl Hseed HI; [done|].
  cbn [for_member_child]. unfold bind.
  pose proof (collect_metric_carries k l L s Hl Hseed HI) as Hk.
  pose proof (walk_refines k export l L s Hl []) as R.
  destruct (_collect_metric k export l s) as [[[] s1]|e]; [|exact Hk].
  destruct R as [Hp _]. apply (IH l L); [|done|exact Hk].
  by eapply prefix_lookup_Some.
Qed.

End Carried.

(** ** The tags of the table *)

Lemma of_table_facts export' :
  of_table export' ->
  exists export,
    export ∈ ExportTags /\
    ExportTag.name export' = ExportTag.name export /\
    ExportTag.prefix export' = ExportTag.prefix export /\
    ExportTag.include export' = ExportTag.include export /\
    ExportTag.default export' = Some false /\
    ExportTag.exclude export' = [] /\
    ((ExportTag._init_func export' = None /\
      ExportTag._filter_func export' = None) \/
     (ExportTag._init_func export' = Some ExportTag.DomainInit /\
      ExportTag._filter_func export' = Some ExportTag.DomainFilter)).
Proof.
  intros (export & Hin & H). exists export. split; [done|].
  assert (ExportTag.default export = Some false /\
          ExportTag.exclude export = [] /\
          ((ExportTag._init_func export = None /\
            ExportTag._filter_func export = None) \/
           (ExportTag._init_func export = Some ExportTag.DomainInit /\
            ExportTag._filter_func export = Some ExportTag.DomainFilter)))
    as (Hd & He & Hf).
  { unfold ExportTags in Hin.
    repeat (apply elem_of_cons in Hin as [->|Hin]; [cbn; tauto|]).
    by apply elem_of_nil in Hin. }
  destruct H as [->|[d ->]]; cbn; tauto.
Qed.

(** After [collect_init] the filter of a tag of the table can be asked:
    it raises nothing and says yes only to names of the include list. *)
Lemma collect_init_of_table export member :
  of_table export ->
  exists export',
    ExportTag.collect_init export member = Ok export' /\
    of_table export' /\
    ExportTag.name export' = ExportTag.name export /\
    ExportTag.prefix export' = ExportTag.prefix export /\
    forall field labels,
      exists b, ExportTag.collect_metric export' field labels = Ok b /\
                (b = true -> field ∈ ExportTag.include export').
Proof.
  intros Htab.
  destruct (of_table_facts export Htab)
    as (export0 & Hin & Hn & Hp & Hi & Hd & He & Hf).
  unfold ExportTag.collect_init.
  destruct Hf as [[Hinit Hfilter]|[Hinit Hfilter]]; rewrite Hinit.
  - exists export. repeat split; [done|].
    intros field labels. unfold ExportTag.collect_metric.
    rewrite Hd, He, Hfilter.
    destruct (bool_decide (field ∈ ExportTag.include export)) eqn:Hb.
    + exists true. split; [done|]. intros _. by apply bool_decide_eq_true in Hb.
    + exists false. split; [|done].
      rewrite bool_decide_eq_false_2; [done|]. by intros H%elem_of_nil.
  - cbn [ExportTag.DomainInit rbind]. eexists. split; [reflexivity|].
    cbn [ExportTag.name ExportTag.prefix ExportTag.include].
    split; [|split; [done|split; [done|]]].
    + rewrite <- Hinit.
      destruct Htab as (e0 & Hin0 & [->|[d ->]]); exists e0; split; try done;
        right; unfold initialised; eexists; reflexivity.
    + intros field labels. unfold ExportTag.collect_metric.
      cbn [ExportTag.default ExportTag.include ExportTag.exclude
           ExportTag._filter_func ExportTag.data].
      rewrite Hd, He, Hfilter.
      destruct (bool_decide (field ∈ ExportTag.include export)) eqn:Hb.
      * eexists. split; [reflexivity|]. intros _.
        by apply bool_decide_eq_true in Hb.
      * exists false. split; [|done].
        rewrite bool_decide_eq_false_2; [done|]. by intros H%elem_of_nil.
Qed.

(** ** What the steps of a [metric] node can raise *)

Lemma py_int_raises txt x : Num.py_int txt = Raise x -> x = ValueError.
Proof.
  unfold Num.py_int.
  assert (forall r sign,
            match Num.digits r with
            | Some n => Ok (sign * n)%Z
            | None => Raise ValueError
            end = Raise x -> x = ValueError) as H.
  { intros r sign. destruct (Num.digits r); intros; by simplify_eq. }
  destruct (Str.strip txt) as [|c r]; [apply H|].
  destruct c as [[] [] [] [] [] [] [] []]; apply H.
Qed.

Lemma py_float_raises txt x : Num.py_float txt = Raise x -> x = ValueError.
Proof.
  unfold Num.py_float.
  destruct (Num.drop_underscores false (Str.strip txt)) as [t|];
    [|intros; by simplify_eq].
  set (split := match t with
                | String "+" r => (false, r)
                | String "-" r => (true, r)
                | _ => (false, t)
                end).
  destruct split as [negative body].
  destruct (_ || _); [done|]. destruct (String.eqb _ "nan"); [done|].
  destruct (Num.run 0 0 body) as [[ipart ilen] r1].
  set (frac := match r1 with
               | String "." r => Num.run ipart 0 r
               | _ => (ipart, 0%nat, r1)
               end).
  destruct frac as [[m flen] r2].
  destruct (_ =? _)%nat; [intros; by simplify_eq|].
  destruct (Num.exponent r2); intros; by simplify_eq.
Qed.

Lemma transform_raises raw field transform v x :
  _metric_transform raw = Ok (field, transform) ->
  transform v = Raise x -> x = OverflowError.
Proof.
  unfold _metric_transform. intros H Hv. destruct raw as [raw|]; [|done].
  destruct (bool_decide _); [by simplify_eq|].
  destruct (String.eqb _ _); [|by simplify_eq].
  simplify_eq. unfold Num.truediv, Num.float_of_int, rbind in Hv.
  destruct v; [|done]. by destruct (is_infinity _); simplify_eq.
Qed.

Lemma metric_transform_raises raw x :
  _metric_transform raw = Raise x -> x = AttributeError.
Proof.
  unfold _metric_transform. destruct raw as [raw|]; [|intros; by simplify_eq].
  destruct (bool_decide _); [done|]. by destruct (String.eqb _ _).
Qed.

Lemma emit_raises_walk_error element export L s x :
  (forall field labels,
     exists b, ExportTag.collect_metric export field labels = Ok b) ->
  emit element export L s = Raise x -> walk_error x.
Proof.
  intros Hfilter. unfold emit, bind, lift, walk_error.
  destruct (_metric_transform _) as [[field transform]|e] eqn:Htr.
  2:{ intros H. simplify_eq. rewrite (metric_transform_raises _ _ Htr). tauto. }
  destruct (Hfilter field L) as [b ->]. destruct b; [|done].
  destruct (bool_decide (_ ∈ _)); [|done].
  match goal with
  | |- context [match (match ?v with Ok _ => _ | Raise _ => _ end) with
                | Ok _ => _ | Raise _ => _ end] =>
      destruct v as [value|e] eqn:Hvalue
  end.
  - destruct (transform value) as [scaled|e] eqn:Hscale; [done|].
    intros H. simplify_eq. rewrite (transform_raises _ _ _ _ _ Htr Hscale). tauto.
  - intros H. simplify_eq.
    destruct (bool_decide (_ = Some "boolean")).
    { destruct (text element); [|simplify_eq; tauto].
      by destruct (String.eqb _ _). }
    destruct (bool_decide (_ = Some "float")).
    { destruct (text element) as [txt|]; [|simplify_eq; tauto].
      destruct (Num.py_float txt) eqn:Hf; [done|]. cbn in Hvalue. simplify_eq.
      rewrite (py_float_raises _ _ Hf). tauto. }
    destruct (text element) as [txt|]; [|simplify_eq; tauto].
    destruct (Num.py_int txt) eqn:Hf; [done|]. cbn in Hvalue. simplify_eq.
    rewrite (py_int_raises _ _ Hf). tauto.
Qed.

(** ** A property of the families carried through a pass *)

Section Pass.

Variable I : gmap string GaugeMetricFamily -> Prop.
Variable E : exn -> Prop.
Variable self : DcacheCollector.t.

Hypothesis record_keeps :
  forall export m field L v,
    export ∈ ExportTags -> I m -> seeded self export L ->
    field = "pool_rel" \/ field ∈ ExportTag.include export ->
    I (recorded m ("dcache_" +:+ ExportTag.prefix export +:+ "_" +:+ field) L v).

Hypothesis errors : forall x, walk_error x -> E x.

Lemma collect_metrics_set_carries member export s :
  of_table export -> I (_metrics s) ->
  match _collect_metrics_set self member export s with
  | Ok (export', s') => of_table export' /\ I (_metrics s')
  | Raise x => E x
  end.
Proof.
  intros Htab HI.
  destruct (collect_init_of_table export member Htab)
    as (export' & Hinit & Htab' & _ & _ & Hfilter).
  destruct (of_table_facts export' Htab')
    as (export0 & Hin & _ & Hp & Hi & _).
  unfold _collect_metrics_set, bind, lift. rewrite Hinit.
  set (identity := if String.eqb (get_short_tag member) "linkgroup"
                   then Ok (attrib_get "lgid" (attrib member))
                   else match attrib_get "name" (attrib member) with
                        | Some name =>
                            if Str.contains "@" name
                            then Ok (Some (Str.before_first "@" name))
                            else Ok (Some name)
                        | None => Raise TypeError
                        end).
  assert (forall x, identity = Raise x -> walk_error x) as Hid.
  { subst identity. intros x. destruct (String.eqb _ _); [done|].
    destruct (attrib_get _ _); [by destruct (Str.contains _ _)|].
    intros; simplify_eq. unfold walk_error. tauto. }
  destruct identity as [id|x]; [|by apply errors, Hid].
  cbn [new_list].
  set (seed := [("dcache_cluster", Some (_cluster self));
                (ExportTag.prefix export', id)]).
  pose proof (for_member_child_carries I E export' seed) as Hkids.
  specialize (Hkids
    ltac:(intros m field L v Hm HL [->|[L' HL']]; rewrite Hp;
          (apply record_keeps;
           [done|done|exists id; by rewrite <- Hp|]);
          [by left|right; rewrite <- Hi;
                   destruct (Hfilter field L') as (b & Hb & Hinc);
                   rewrite Hb in HL'; apply Hinc; by simplify_eq])
    ltac:(intros element L s0 x Hx; apply errors;
          apply (emit_raises_walk_error element export' L s0 x); [|done];
          intros field labels; destruct (Hfilter field labels) as (b & Hb & _);
          by exists b)
    (children member) (length (heap s)) seed
    (mkState (heap s ++ [seed]) (_metrics s))).
  cbn [heap _metrics] in Hkids.
  specialize (Hkids ltac:(by rewrite list_lookup_middle) ltac:(done) HI).
  destruct (for_member_child export' _ _ _) as [[[] s']|x]; [|exact Hkids].
  cbn. by split.
Qed.

Lemma for_member_carries members :
  forall export s,
    of_table export -> I (_metrics s) ->
    post I E (for_member self export members s).
Proof.
  induction members as [|m members IH]; intros export s Htab HI; [done|].
  cbn [for_member]. unfold bind.
  pose proof (collect_metrics_set_carries m export s Htab HI) as Hm.
  destruct (_collect_metrics_set self m export s) as [[export' s']|x];
    [|exact Hm].
  destruct Hm as [Htab' HI']. by apply IH.
Qed.

Lemma for_export_carries tree ns exports :
  forall s,
    Forall of_table exports -> I (_metrics s) ->
    post I E (for_export self tree ns exports s).
Proof.
  induction exports as [|export exports IH]; intros s Htab HI; [done|].
  apply Forall_cons in Htab as [Hexport Htab].
  cbn [for_export]. unfold bind at 1.
  set (first := match findall tree (ns +:+ ExportTag.name export) with
                | [] => ret tt
                | container :: _ =>
                    for_member self export (children container) >> ret tt
                end).
  assert (post I E (first s)) as Hfirst.
  { subst first. destruct (findall _ _) as [|container ?]; [done|].
    unfold bind.
    pose proof (for_member_carries (children container) export s Hexport HI)
      as Hm.
    by destruct (for_member self export _ s) as [[? ?]|?]. }
  destruct (first s) as [[[] s1]|x]; [|exact Hfirst].
  by apply IH.
Qed.

Lemma collect_all_metrics_carries tree ns :
  I ∅ ->
  match _collect_all_metrics self tree ns with
  | Ok metrics => I metrics
  | Raise x => E x
  end.
Proof.
  intros HI. unfold _collect_all_metrics.
  pose proof (for_export_carries tree ns ExportTags (mkState [] ∅)) as H.
  assert (Forall of_table ExportTags) as Htab.
  { apply Forall_forall. intros export Hin. exists export. split; [done|by left]. }
  specialize (H Htab HI).
  by destruct (for_export self tree ns ExportTags _) as [[[] s]|x].
Qed.

End Pass.

(** ** Qualified tags *)

Lemma split_last_Some c s pre post :
  Str.split_last c s = Some (pre, post) ->
  s = pre +:+ post /\
  (exists u, pre = u +:+ String c "") /\
  Str.contains c post = false.
Proof.
  revert pre post. induction s as [|a s IH]; intros pre post H; [done|].
  cbn in H. destruct (Str.split_last c s) as [[pre' post']|] eqn:Hs.
  - simplify_eq. destruct (IH _ _ eq_refl) as (-> & [u ->] & Hpost).
    split; [done|]. split; [by exists (String a u)|done].
  - destruct (Ascii.eqb_spec a c) as [->|]; [|done]. simplify_eq.
    split; [done|]. split; [by exists ""|].
    clear IH. induction post as [|b post IH]; [done|].
    cbn in Hs. destruct (Str.split_last c post) as [[? ?]|]; [done|].
    cbn. destruct (Ascii.eqb b c); [done|]. by apply IH.
Qed.

Lemma split_last_None c s :
  Str.split_last c s = None <-> Str.contains c s = false.
Proof.
  induction s as [|a s IH]; [done|]. cbn.
  destruct (Str.split_last c s) as [[? ?]|].
  - split; [done|]. destruct (Ascii.eqb a c); [done|]. intros H.
    by apply IH in H.
  - destruct (Ascii.eqb a c); [done|]. split; [|done]. intros _. by apply IH.
Qed.

Lemma split_last_append c u post :
  Str.contains c post = false ->
  Str.split_last c (u +:+ String c post) = Some (u +:+ String c "", post).
Proof.
  intros Hpost. apply split_last_None in Hpost.
  induction u as [|a u IH].
  - rewrite append_nil. cbn. by rewrite Hpost, Ascii.eqb_refl.
  - rewrite !append_cons. cbn. by rewrite IH.
Qed.

Lemma before_first_absent c s :
  Str.contains c s = false -> Str.before_first c s = s.
Proof.
  induction s as [|a s IH]; [done|]. cbn.
  destruct (Ascii.eqb a c); [done|]. intros H. by rewrite IH.
Qed.

Lemma before_first_clean c s : Str.contains c (Str.before_first c s) = false.
Proof.
  induction s as [|a s IH]; [done|]. cbn.
  destruct (Ascii.eqb a c) eqn:Ha; [done|]. cbn. by rewrite Ha.
Qed.

Lemma before_first_split c s :
  Str.contains c s = true ->
  exists rest, s = Str.before_first c s +:+ String c rest.
Proof.
  induction s as [|a s IH]; [done|]. cbn.
  destruct (Ascii.eqb_spec a c) as [->|].
  - intros _. by exists s.
  - intros H. destruct (IH H) as [rest Hrest]. exists rest.
    rewrite append_cons. by rewrite <- Hrest.
Qed.

Lemma contains_append c s t :
  Str.contains c (s +:+ t) = Str.contains c s || Str.contains c t.
Proof.
  induction s as [|a s IH]; [done|]. rewrite append_cons. cbn.
  by destruct (Ascii.eqb a c).
Qed.

(** X1: the namespace and the short tag of an element split the first
    line of its tag: when [get_namespace] returns, it returns a braced
    prefix, the short tag is what follows and holds no closing brace;
    when it raises, it raises [AttributeError] and the short tag is the
    whole first line. *)
Theorem namespace_and_short_tag (element : Element) :
  match get_namespace element with
  | Ok ns =>
      Str.before_first Str.LF (tag element) = ns +:+ get_short_tag element /\
      (exists uri, ns = "{" +:+ uri +:+ "}") /\
      Str.contains "}" (get_short_tag element) = false
  | Raise x =>
      x = AttributeError /\
      get_short_tag element = Str.before_first Str.LF (tag element)
  end.
Proof.
  unfold get_namespace, get_short_tag.
  destruct (Str.before_first Str.LF (tag element)) as [|c rest]; [done|].
  destruct (Ascii.eqb_spec c "{") as [->|Hc].
  - destruct (Str.split_last "}" rest) as [[pre post]|] eqn:Hs; [|done].
    destruct (split_last_Some _ _ _ _ Hs) as (-> & [u ->] & Hpost).
    split; [done|]. split; [by exists u|done].
  - destruct c as [[] [] [] [] [] [] [] []]; try done.
Qed.

(** X2: for a tag written [{uri}local], with no line feed in it and no
    closing brace in [local], [get_namespace] gives [{uri}] and
    [get_short_tag] gives [local], whatever [uri] holds besides. *)
Theorem qualified_tag_parts (uri local : string) attrs txt kids :
  Str.contains Str.LF uri = false ->
  Str.contains Str.LF local = false ->
  Str.contains "}" local = false ->
  let element := Elem ("{" +:+ uri +:+ "}" +:+ local) attrs txt kids in
  get_namespace element = Ok ("{" +:+ uri +:+ "}") /\
  get_short_tag element = local.
Proof.
  intros Huri Hlocal Hbrace element.
  assert (Str.before_first Str.LF (tag element) = "{" +:+ uri +:+ "}" +:+ local)
    as Hline.
  { apply before_first_absent. cbn [tag element].
    by rewrite !contains_append, Huri, Hlocal. }
  unfold get_namespace, get_short_tag. rewrite Hline.
  rewrite append_cons, append_nil.
  change ("}" +:+ local) with (String "}" local).
  by rewrite (split_last_append _ _ _ Hbrace).
Qed.

(** ** The outcome of [collect] *)

Lemma get_namespace_raises element x :
  get_namespace element = Raise x -> x = AttributeError.
Proof.
  unfold get_namespace.
  destruct (Str.before_first Str.LF (tag element)) as [|c rest];
    [intros; by simplify_eq|].
  destruct c as [[] [] [] [] [] [] [] []]; try (intros; by simplify_eq).
  destruct (Str.split_last "}" rest) as [[? ?]|]; intros; by simplify_eq.
Qed.

(** The three ways [collect] can end once the document is there. *)
Lemma collect_fetched self net tree :
  connect net (_info_host self) (_info_port self) = Ok tt ->
  document net = Ok tree ->
  (exists x, get_namespace tree = Raise x /\ collect self net = ([], Some x)) \/
  (exists ns x, get_namespace tree = Ok ns /\
                _collect_all_metrics self tree ns = Raise x /\
                collect self net
                = (match x with
                   | ConnectionRefusedError => ([], None)
                   | _ => ([], Some x)
                   end)) \/
  (exists ns metrics,
     get_namespace tree = Ok ns /\
     _collect_all_metrics self tree ns = Ok metrics /\
     collect self net
     = (omap (fun key => metrics !! key) (sorted_keys metrics), None)).
Proof.
  intros Hconn Hdoc. unfold collect, _get_xml_tree. rewrite Hconn, Hdoc.
  cbn [rbind]. destruct (get_namespace tree) as [ns|x] eqn:Hns.
  - cbn [rbind]. right.
    destruct (_collect_all_metrics self tree ns) as [metrics|x] eqn:Hall.
    + right. by exists ns, metrics.
    + left. exists ns, x. repeat split. by destruct x.
  - left. exists x. split; [done|].
    rewrite (get_namespace_raises _ _ Hns). done.
Qed.

(** Without a fetched document nothing is yielded. *)
Lemma collect_not_fetched self net :
  (forall tree, ~ (connect net (_info_host self) (_info_port self) = Ok tt /\
                   document net = Ok tree)) ->
  fst (collect self net) = [].
Proof.
  intros H. unfold collect, _get_xml_tree.
  destruct (connect net _ _) as [[]|x]; [|by destruct x].
  destruct (document net) as [tree|x]; [|by destruct x].
  by destruct (H tree).
Qed.

(** What [I] says of the families of a pass it says of the families
    [collect] yields. *)
Lemma collect_yields (I : gmap string GaugeMetricFamily -> Prop) self net :
  I ∅ ->
  (forall export m field L v,
     export ∈ ExportTags -> I m -> seeded self export L ->
     field = "pool_rel" \/ field ∈ ExportTag.include export ->
     I (recorded m ("dcache_" +:+ ExportTag.prefix export +:+ "_" +:+ field) L v)) ->
  fst (collect self net) = [] \/
  exists metrics,
    I metrics /\
    fst (collect self net)
    = omap (fun key => metrics !! key) (sorted_keys metrics).
Proof.
  intros Hempty Hrec.
  destruct (connect net (_info_host self) (_info_port self)) as [[]|x] eqn:Hconn.
  2:{ left. apply collect_not_fetched. intros tree [H _]. by rewrite Hconn in H. }
  destruct (document net) as [tree|x] eqn:Hdoc.
  2:{ left. apply collect_not_fetched. intros tree [_ H]. by rewrite Hdoc in H. }
  destruct (collect_fetched self net tree Hconn Hdoc)
    as [(x & _ & ->)|[(ns & x & _ & _ & ->)|(ns & metrics & _ & Hall & ->)]].
  - by left.
  - left. by destruct x.
  - right. exists metrics. split; [|done].
    pose proof (collect_all_metrics_carries I (fun _ => True) self Hrec
                  (fun _ _ => Logic.I) tree ns Hempty) as H.
    by rewrite Hall in H.
Qed.

(** X3: once the document is fetched, a pass either yields its families
    or lets one of [AttributeError], [TypeError], [ValueError],
    [OverflowError] escape, yielding nothing: no error of the walk is
    taken for a refused connection. *)
Theorem fetched_pass_surfaces_errors self net tree :
  connect net (_info_host self) (_info_port self) = Ok tt ->
  document net = Ok tree ->
  (exists families, collect self net = (families, None) /\
     exists ns metrics,
       get_namespace tree = Ok ns /\
       _collect_all_metrics self tree ns = Ok metrics) \/
  (exists x, walk_error x /\ collect self net = ([], Some x)).
Proof.
  intros Hconn Hdoc.
  destruct (collect_fetched self net tree Hconn Hdoc)
    as [(x & Hns & Hc) | [(ns & x & Hns & Hall & Hc)
                         | (ns & metrics & Hns & Hall & Hc)]];
    rewrite Hc; clear Hc.
  - right. exists x. split; [|done].
    rewrite (get_namespace_raises _ _ Hns). unfold walk_error. tauto.
  - right. exists x.
    pose proof (collect_all_metrics_carries (fun _ => True) walk_error self
                  (fun _ _ _ _ _ _ _ _ _ => Logic.I) (fun _ H => H) tree ns Logic.I)
      as H.
    rewrite Hall in H. split; [done|].
    destruct H as [-> | [-> | [-> | ->]]]; done.
  - left. eexists. split; [done|]. by exists ns, metrics.
Qed.

(** ** The families a pass yields *)

Lemma recorded_lookup m mn L v key :
  recorded m mn L v !! key
  = if decide (mn = key)
    then Some (add_metric (default (new_family mn (label_names L)) (m !! mn))
                 (label_values L) v)
    else m !! key.
Proof.
  unfold recorded. rewrite lookup_insert. destruct (decide (mn = key)); [|done].
  by destruct (m !! mn).
Qed.

Lemma str_le_total : Total str_le.
Proof. intros a b. apply String.leb_total. Qed.

Lemma omap_lookup_keys (m : gmap string GaugeMetricFamily) (keys : list string) :
  (forall key, key ∈ keys -> exists fam, m !! key = Some fam /\ family_name fam = key) ->
  List.map family_name (omap (fun key => m !! key) keys) = keys /\
  forall fam, fam ∈ omap (fun key => m !! key) keys ->
              m !! family_name fam = Some fam.
Proof.
  induction keys as [|k keys IH]; intros H.
  - split; [done|]. intros fam Hf. by apply elem_of_nil in Hf.
  - destruct (H k ltac:(left)) as (fam & Hfam & Hname).
    destruct IH as [IH1 IH2]; [intros key Hk; apply H; by right|].
    cbn. rewrite Hfam. cbn. rewrite Hname, IH1. split; [done|].
    intros f [->|Hf]%elem_of_cons; [by rewrite Hname|by apply IH2].
Qed.

Lemma sorted_keys_spec (m : gmap string GaugeMetricFamily) :
  Sorted str_le (sorted_keys m) /\ NoDup (sorted_keys m) /\
  forall key, key ∈ sorted_keys m <-> is_Some (m !! key).
Proof.
  unfold sorted_keys.
  pose proof (merge_sort_Permutation str_le (List.map fst (map_to_list m))) as Hp.
  split; [apply (@Sorted_merge_sort _ str_le _ str_le_total)|]. split.
  - rewrite Hp. apply (NoDup_fst_map_to_list m).
  - intros key. rewrite Hp.
    change (List.map fst (map_to_list m)) with (map_to_list m).*1.
    rewrite list_elem_of_fmap. split.
    + intros ([k f] & -> & H). apply elem_of_map_to_list in H. by exists f.
    + intros [f H]. exists (key, f). split; [done|]. by apply elem_of_map_to_list.
Qed.

(** X4: the families [collect] yields come in ascending order of their
    names, no name twice; each has at least one sample and all its
    samples carry its name. *)
Theorem yielded_families_sorted self net :
  Sorted str_le (List.map family_name (fst (collect self net))) /\
  NoDup (List.map family_name (fst (collect self net))) /\
  Forall (fun fam => well_formed (family_name fam) fam) (fst (collect self net)).
Proof.
  destruct (collect_yields
              (fun m => forall key fam, m !! key = Some fam -> well_formed key fam)
              self net) as [->|(metrics & HI & ->)].
  - intros key fam H. by rewrite lookup_empty in H.
  - intros export m field L v _ HI _ _ key fam.
    rewrite recorded_lookup. destruct (decide _) as [<-|]; [|apply HI].
    intros H. simplify_eq. unfold well_formed, add_metric. cbn.
    destruct (m !! _) as [fam0|] eqn:Hfam0; cbn.
    + destruct (HI _ _ Hfam0) as (Hn & _ & Hs). rewrite Hn.
      split; [done|]. split; [by destruct (samples fam0)|].
      apply Forall_app. split; [done|]. by repeat constructor.
    + split; [done|]. split; [done|]. by repeat constructor.
  - repeat split; constructor.
  - destruct (sorted_keys_spec metrics) as (Hsorted & Hnodup & Hkeys).
    destruct (omap_lookup_keys metrics (sorted_keys metrics)) as [Hnames Hfams].
    { intros key Hkey. apply Hkeys in Hkey as [fam Hfam]. exists fam.
      split; [done|]. apply (HI _ _ Hfam). }
    rewrite Hnames. split; [done|]. split; [done|].
    apply Forall_forall. intros fam Hfam. apply (HI _ _ (Hfams _ Hfam)).
Qed.

(** X5: every family [collect] yields is named
    [dcache_<prefix>_<field>] for a category of the table and a field
    that is [pool_rel] or on the include list of that category, and its
    label names start with [dcache_cluster] and the prefix of that
    category. *)
Theorem yielded_names_are_listed self net fam :
  fam ∈ fst (collect self net) ->
  exists export field rest,
    export ∈ ExportTags /\
    family_name fam
    = "dcache_" +:+ ExportTag.prefix export +:+ "_" +:+ field /\
    (field = "pool_rel" \/ field ∈ ExportTag.include export) /\
    _labelnames fam = "dcache_cluster" :: ExportTag.prefix export :: rest.
Proof.
  set (listed key fam :=
         family_name fam = key /\
         exists export field rest,
           export ∈ ExportTags /\
           key = "dcache_" +:+ ExportTag.prefix export +:+ "_" +:+ field /\
           (field = "pool_rel" \/ field ∈ ExportTag.include export) /\
           _labelnames fam = "dcache_cluster" :: ExportTag.prefix export :: rest).
  destruct (collect_yields
              (fun m => forall key fam, m !! key = Some fam -> listed key fam)
              self net) as [->|(metrics & HI & ->)].
  - intros key f H. by rewrite lookup_empty in H.
  - intros export m field L v Hin HI [identity [more ->]] Hfield key f.
    rewrite recorded_lookup. destruct (decide _) as [<-|]; [|apply HI].
    intros H. simplify_eq. unfold listed, add_metric. cbn.
    destruct (m !! _) as [fam0|] eqn:Hfam0; cbn.
    + apply (HI _ _ Hfam0).
    + split; [done|]. exists export, field, (label_names more).
      repeat split; done.
  - intros H. by apply elem_of_nil in H.
  - intros Hfam.
    assert (exists key, metrics !! key = Some fam) as [key Hkey].
    { apply list_elem_of_omap in Hfam as (key & _ & H). by exists key. }
    destruct (HI _ _ Hkey) as (<- & export & field & rest & H).
    by exists export, field, rest.
Qed.

(** ** Families only grow *)

Lemma grows_refl m : grows m m.
Proof. intros key fam H. exists fam. by repeat split. Qed.

Lemma grows_recorded m0 m mn L v :
  grows m0 m -> grows m0 (recorded m mn L v).
Proof.
  intros H key fam Hfam. destruct (H key fam Hfam) as (fam' & Hf' & Hn & Hl & Hs).
  rewrite recorded_lookup. destruct (decide (mn = key)) as [->|]; [|by exists fam'].
  rewrite Hf'. eexists. split; [reflexivity|]. cbn.
  repeat split; [done|done|]. by apply prefix_app_r.
Qed.

(** X6: a walk only adds to the families: a family that exists when the
    walk of a node starts is still there when it ends, with the name and
    the label names it had, and with its samples followed by the new
    ones. *)
Theorem walk_only_appends element export l L s s' :
  heap s !! l = Some L ->
  _collect_metric element export l s = Ok (tt, s') ->
  grows (_metrics s) (_metrics s').
Proof.
  intros Hl Hwalk.
  pose proof (collect_metric_carries (grows (_metrics s)) (fun _ => True)
                export []
                (fun m field L0 v Hm _ _ => grows_recorded _ m _ L0 v Hm)
                (fun _ _ _ _ _ => Logic.I)
                element l L s Hl (prefix_nil L) (grows_refl _)) as H.
  by rewrite Hwalk in H.
Qed.

(** ** Categories do not share families *)

(** X7: two categories of the table never record under the same metric
    name: a metric name determines its category and its field. *)
Theorem categories_do_not_share_families export1 export2 field1 field2 :
  export1 ∈ ExportTags -> export2 ∈ ExportTags ->
  "dcache_" +:+ ExportTag.prefix export1 +:+ "_" +:+ field1
  = "dcache_" +:+ ExportTag.prefix export2 +:+ "_" +:+ field2 ->
  export1 = export2 /\ field1 = field2.
Proof.
  unfold ExportTags. intros H1 H2.
  repeat (apply elem_of_cons in H1 as [->|H1]);
    [| | | | | |by apply elem_of_nil in H1];
    (repeat (apply elem_of_cons in H2 as [->|H2]);
       [| | | | | |by apply elem_of_nil in H2]);
    vm_compute; intros H; by simplify_eq.
Qed.

(** ** What of the document a pass reads *)

Lemma for_export_heads self tree tree' ns exports :
  (forall export, export ∈ exports ->
     head (findall tree (ns +:+ ExportTag.name export))
     = head (findall tree' (ns +:+ ExportTag.name export))) ->
  forall s, for_export self tree ns exports s = for_export self tree' ns exports s.
Proof.
  induction exports as [|export exports IH]; intros H s; [done|].
  cbn [for_export]. unfold bind at 1 3.
  pose proof (H export ltac:(left)) as Hh.
  assert (match findall tree (ns +:+ ExportTag.name export) with
          | [] => ret tt
          | container :: _ =>
              for_member self export (children container) >> ret tt
          end
          = match findall tree' (ns +:+ ExportTag.name export) with
            | [] => ret tt
            | container :: _ =>
                for_member self export (children container) >> ret tt
            end) as ->.
  { destruct (findall tree _) as [|c ?], (findall tree' _) as [|c' ?];
      cbn in Hh; by simplify_eq. }
  match goal with
  | |- match ?c with Ok _ => _ | Raise _ => _ end = _ =>
      destruct c as [[[] s1]|x]; [|done]
  end.
  apply IH. intros e He. apply H. by right.
Qed.

(** X8: of each category a pass reads the first container only: two
    documents with the same root tag whose first containers agree,
    category by category, give the same outcome, whatever else the root
    holds. *)
Theorem pass_reads_first_containers self (answer : string -> Z -> result unit)
    tree tree' :
  tag tree = tag tree' ->
  (forall ns export,
     get_namespace tree = Ok ns -> export ∈ ExportTags ->
     head (findall tree (ns +:+ ExportTag.name export))
     = head (findall tree' (ns +:+ ExportTag.name export))) ->
  collect self (mkNetwork answer (Ok tree))
  = collect self (mkNetwork answer (Ok tree')).
Proof.
  intros Htag Hheads. unfold collect, _get_xml_tree. cbn [connect document].
  destruct (answer _ _) as [[]|x]; [|done]. cbn [rbind].
  assert (get_namespace tree' = get_namespace tree) as ->.
  { unfold get_namespace. by rewrite Htag. }
  destruct (get_namespace tree) as [ns|x] eqn:Hns; [|done]. cbn [rbind].
  unfold _collect_all_metrics.
  by rewrite (for_export_heads self tree tree' ns ExportTags
                (fun export Hin => Hheads ns export eq_refl Hin)).
Qed.

Lemma for_export_nothing self tree ns exports :
  (forall export container,
     export ∈ exports ->
     head (findall tree (ns +:+ ExportTag.name export)) = Some container ->
     children container = []) ->
  forall s, for_export self tree ns exports s = Ok (tt, s).
Proof.
  induction exports as [|export exports IH]; intros H s; [done|].
  cbn [for_export]. unfold bind at 1.
  pose proof (H export) as Hh.
  destruct (findall tree (ns +:+ ExportTag.name export)) as [|c ?].
  - cbn [ret]. apply IH. intros e c He. apply H. by right.
  - rewrite (Hh c ltac:(left) eq_refl). cbn.
    apply IH. intros e c' He. apply H. by right.
Qed.

(** X9: a fetched document whose root carries a namespace and holds no
    category container, or only containers without members, yields no
    family and raises nothing. *)
Theorem empty_snapshot_yields_nothing self net tree ns :
  connect net (_info_host self) (_info_port self) = Ok tt ->
  document net = Ok tree ->
  get_namespace tree = Ok ns ->
  (forall export container,
     export ∈ ExportTags ->
     head (findall tree (ns +:+ ExportTag.name export)) = Some container ->
     children container = []) ->
  collect self net = ([], None).
Proof.
  intros Hconn Hdoc Hns Hempty. unfold collect, _get_xml_tree.
  rewrite Hconn, Hdoc. cbn [rbind]. rewrite Hns. cbn [rbind].
  unfold _collect_all_metrics.
  rewrite (for_export_nothing self tree ns ExportTags Hempty). cbn [rbind _metrics].
  unfold sorted_keys. by rewrite map_to_list_empty.
Qed.

(** ** Nodes that cannot be read *)

(** X10: a [metric] node without a [name] attribute aborts the walk with
    [AttributeError], in every category and whatever its type, text and
    children: the transform is applied to the missing name before the
    filter is asked. *)
Theorem metric_without_name_raises t a x kids export l s :
  get_short_tag (Elem t a x kids) = "metric" ->
  attrib_get "name" a = None ->
  _collect_metric (Elem t a x kids) export l s = Raise AttributeError.
Proof.
  intros Htag Hname. rewrite _collect_metric_eq, Htag.
  cbn [String.eqb Ascii.eqb Bool.eqb]. unfold bind at 1.
  unfold observe, bind, read_list, emit, bind, lift. cbn [attrib].
  by rewrite Hname.
Qed.

(** X11: a [metric] node that passes the filter and has one of the three
    types aborts the walk when its value cannot be read: without text it
    raises [AttributeError] for a boolean and [TypeError] for a float or
    an integer; with a text that is no number it raises [ValueError] for
    a float or an integer. *)
Theorem unreadable_value_aborts_walk
    t a x kids export l L s raw ty field scale :
  get_short_tag (Elem t a x kids) = "metric" ->
  heap s !! l = Some L ->
  attrib_get "name" a = Some raw ->
  attrib_get "type" a = Some ty ->
  ty ∈ ["float"; "integer"; "boolean"] ->
  _metric_transform (Some raw) = Ok (field, scale) ->
  ExportTag.collect_metric export field L = Ok true ->
  (x = None ->
   _collect_metric (Elem t a x kids) export l s
   = Raise (if String.eqb ty "boolean" then AttributeError else TypeError)) /\
  (forall txt,
     x = Some txt -> ty <> "boolean" ->
     (if String.eqb ty "float" then Num.py_float txt = Raise ValueError
      else Num.py_int txt = Raise ValueError) ->
     _collect_metric (Elem t a x kids) export l s = Raise ValueError).
Proof.
  intros Htag Hl Hraw Hty Hin Htr Hok. split.
  - intros ->. rewrite _collect_metric_eq, Htag.
    cbn [String.eqb Ascii.eqb Bool.eqb]. unfold bind at 1.
    rewrite (observe_emit _ _ _ _ _ Hl). unfold emit, bind, lift.
    cbn [attrib text]. rewrite Hraw, Hty, Htr, Hok.
    repeat (apply elem_of_cons in Hin as [->|Hin]);
      [| | |by apply elem_of_nil in Hin]; reflexivity.
  - intros txt -> Hnb Hbad. rewrite _collect_metric_eq, Htag.
    cbn [String.eqb Ascii.eqb Bool.eqb]. unfold bind at 1.
    rewrite (observe_records _ _ _ _ _ _ _ _ _ _ _ _ Hl Hraw Hty Hin Htr Hok).
    unfold bind, lift, Claimed.value_stripped, Claimed.coerce_stripped.
    apply String.eqb_neq in Hnb. rewrite Hnb.
    destruct (String.eqb ty "float"); by rewrite Hbad.
Qed.

(** X12: a [metric] node whose field does not pass the filter, or whose
    type is none of [float], [integer], [boolean], records nothing and
    its text is never read: the walk goes on with its children, whatever
    the text is. *)
Theorem skipped_node_reads_no_text
    t a x kids export l L s raw field scale (pass : bool) :
  get_short_tag (Elem t a x kids) = "metric" ->
  heap s !! l = Some L ->
  attrib_get "name" a = Some raw ->
  _metric_transform (Some raw) = Ok (field, scale) ->
  ExportTag.collect_metric export field L = Ok pass ->
  pass = false \/
  attrib_get "type" a ∉ [Some "float"; Some "integer"; Some "boolean"] ->
  _collect_metric (Elem t a x kids) export l s
  = for_child "metric" a export l kids s.
Proof.
  intros Htag Hl Hraw Htr Hok Hskip. rewrite _collect_metric_eq, Htag.
  cbn [String.eqb Ascii.eqb Bool.eqb]. unfold bind at 1.
  rewrite (observe_emit _ _ _ _ _ Hl). unfold emit, bind, lift.
  cbn [attrib]. rewrite Hraw, Htr, Hok.
  destruct Hskip as [->|Hty]; [done|].
  destruct pass; [|done]. by rewrite bool_decide_eq_false_2.
Qed.

(** X13: a member without the attribute its identity label is taken from:
    with any tag but [linkgroup], a missing [name] aborts the pass with
    [TypeError] before any child is walked; with the tag [linkgroup], a
    missing [lgid] raises nothing and the identity label has the value
    [None]. *)
Theorem member_without_identity self export t a x kids s :
  of_table export ->
  (get_short_tag (Elem t a x kids) <> "linkgroup" ->
   attrib_get "name" a = None ->
   _collect_metrics_set self (Elem t a x kids) export s = Raise TypeError) /\
  (get_short_tag (Elem t a x kids) = "linkgroup" ->
   attrib_get "lgid" a = None ->
   exists export',
     ExportTag.collect_init export (Elem t a x kids) = Ok export' /\
     _collect_metrics_set self (Elem t a x kids) export s
     = (labels <- new_list [("dcache_cluster", Some (_cluster self));
                            (ExportTag.prefix export, None)] ;;
        for_member_child export' labels kids >> ret export') s).
Proof.
  intros Htab.
  destruct (collect_init_of_table export (Elem t a x kids) Htab)
    as (export' & Hinit & _ & _ & Hp & _).
  unfold _collect_metrics_set, bind, lift. rewrite Hinit. cbn [attrib children].
  split.
  - intros Htag%String.eqb_neq Hname. by rewrite Htag, Hname.
  - intros Htag Hlgid. exists export'. split; [done|].
    by rewrite Htag, Hlgid, Hp.
Qed.

(** ** Names and labels *)

Lemma replace_clean a b s :
  a <> b -> Str.contains a (Str.replace a b s) = false.
Proof.
  intros Hab. induction s as [|c s IH]; [done|]. cbn.
  destruct (Ascii.eqb_spec c a) as [->|Hc].
  - apply not_eq_sym, Ascii.eqb_neq in Hab. by rewrite Hab.
  - apply Ascii.eqb_neq in Hc. by rewrite Hc.
Qed.

(** X14: the name the transform table gives out never holds a hyphen,
    whatever the raw name is. *)
Theorem transformed_name_has_no_hyphen raw field scale :
  _metric_transform (Some raw) = Ok (field, scale) ->
  Str.contains "-" field = false.
Proof.
  unfold _metric_transform.
  destruct (bool_decide (raw ∈ BYTES_METRICS)) eqn:Hb.
  - intros H. simplify_eq. apply bool_decide_eq_true in Hb.
    unfold BYTES_METRICS in Hb. apply elem_of_list_to_set in Hb.
    vm_compute in Hb.
    repeat (apply elem_of_cons in Hb as [->|Hb]; [reflexivity|]).
    by apply elem_of_nil in Hb.
  - destruct (String.eqb raw "last-heartbeat"); intros H; simplify_eq; [done|].
    by apply replace_clean.
Qed.

(** X15: the identity label of a member that is no [linkgroup] is its
    [name] up to the first [@]: it holds no [@], and the name is either
    that label or that label followed by [@] and a qualifier. The
    children are walked under [dcache_cluster] and this label. *)
Theorem identity_label_has_no_qualifier self export t a x kids s name :
  ExportTag._init_func export = None ->
  get_short_tag (Elem t a x kids) <> "linkgroup" ->
  attrib_get "name" a = Some name ->
  let identity := Str.before_first "@" name in
  _collect_metrics_set self (Elem t a x kids) export s
  = (labels <- new_list [("dcache_cluster", Some (_cluster self));
                         (ExportTag.prefix export, Some identity)] ;;
     for_member_child export labels kids >> ret export) s /\
  Str.contains "@" identity = false /\
  (name = identity \/ exists qualifier, name = identity +:+ "@" +:+ qualifier).
Proof.
  intros Hinit Htag%String.eqb_neq Hname identity. split; [|split].
  - unfold _collect_metrics_set, bind, lift, ExportTag.collect_init.
    rewrite Hinit. cbn [attrib children]. rewrite Htag, Hname.
    destruct (Str.contains "@" name) eqn:Hat; [done|].
    unfold identity. by rewrite (before_first_absent _ _ Hat).
  - apply before_first_clean.
  - destruct (Str.contains "@" name) eqn:Hat.
    + right. destruct (before_first_split _ _ Hat) as [rest Hrest].
      by exists rest.
    + left. unfold identity. by rewrite (before_first_absent _ _ Hat).
Qed.

(** ** The filter of the categories *)

(** X16: a domain that lists no [cellref] under [routing/local] emits no
    value at all: after [collect_init] its filter says no to every field
    under every set of labels. *)
Theorem domain_without_cells_is_silent export member :
  export ∈ ExportTags ->
  ExportTag.name export = "domains" ->
  (forall routing route cell,
     routing ∈ children member -> get_short_tag routing = "routing" ->
     route ∈ children routing -> get_short_tag route = "local" ->
     cell ∈ children route -> get_short_tag cell <> "cellref") ->
  exists export',
    ExportTag.collect_init export member = Ok export' /\
    ExportTag.data export' = Some [] /\
    forall field labels,
      ExportTag.collect_metric export' field labels = Ok false.
Proof.
  intros Hin Hname Hnone.
  assert (export = ExportTag.new "domains" "domain" (Some false) DOMAIN_METRICS []
                     (Some ExportTag.DomainInit) (Some ExportTag.DomainFilter))
    as ->.
  { unfold ExportTags in Hin.
    repeat (apply elem_of_cons in Hin as [->|Hin]; [try done|]).
    by apply elem_of_nil in Hin. }
  destruct (DomainInit_spec member) as (cells & Hinit & Hcells).
  assert (cells = []) as ->.
  { destruct cells as [|p cells]; [done|].
    destruct (proj1 (Hcells p) ltac:(left))
      as (routing & route & cell & H1 & H2 & H3 & H4 & H5 & H6 & _).
    by destruct (Hnone routing route cell). }
  unfold ExportTag.collect_init, ExportTag.new. cbn [ExportTag._init_func].
  rewrite Hinit. cbn [rbind]. eexists. split; [reflexivity|].
  split; [reflexivity|].
  intros field labels. unfold ExportTag.collect_metric. cbn.
  by destruct (bool_decide _).
Qed.

(** X17: once [collect_init] has run, the filter of a category of the
    table raises nothing, and it says yes only to fields of the include
    list of the category; [collect_init] itself never raises and leaves
    the name and the prefix of the tag as they were. *)
Theorem table_filter_after_init export member :
  export ∈ ExportTags ->
  exists export',
    ExportTag.collect_init export member = Ok export' /\
    ExportTag.name export' = ExportTag.name export /\
    ExportTag.prefix export' = ExportTag.prefix export /\
    forall field labels,
      exists b, ExportTag.collect_metric export' field labels = Ok b /\
                (b = true -> field ∈ ExportTag.include export).
Proof.
  intros Hin.
  destruct (collect_init_of_table export member) as (export' & H1 & H2 & H3 & H4 & H5).
  { exists export. split; [done|by left]. }
  exists export'. repeat split; try done.
  intros field labels. destruct (H5 field labels) as (b & Hb & Hinc).
  exists b. split; [done|]. intros ->.
  destruct (of_table_facts export' H2) as (e0 & _ & _ & _ & Hi' & _).
  assert (ExportTag.include export' = ExportTag.include export) as <-; [|auto].
  unfold ExportTag.collect_init in H1.
  destruct (ExportTag._init_func export) as [init|]; [|by simplify_eq].
  destruct (init member); cbn in H1; by simplify_eq.
Qed.

(** ** The further properties at sample documents *)

Lemma qualified_tag_parts_witness :
  Str.contains Str.LF "http://www.dcache.org/2008/01/Info" = false /\
  Str.contains Str.LF "pools" = false /\
  Str.contains "}" "pools" = false /\
  get_namespace (Examples.el "pools" [] None []) = Ok Examples.ns /\
  get_short_tag (Examples.el "pools" [] None []) = "pools".
Proof.
  split; [reflexivity|]. split; [reflexivity|]. split; [reflexivity|].
  apply (qualified_tag_parts "http://www.dcache.org/2008/01/Info" "pools"
           [] None []); reflexivity.
Defined.

Lemma fetched_pass_surfaces_errors_witness :
  connect (Examples.serving Examples.two_depths)
    (_info_host Examples.self) (_info_port Examples.self) = Ok tt /\
  document (Examples.serving Examples.two_depths) = Ok Examples.two_depths /\
  ((exists families,
      collect Examples.self (Examples.serving Examples.two_depths)
      = (families, None) /\
      exists ns metrics,
        get_namespace Examples.two_depths = Ok ns /\
        _collect_all_metrics Examples.self Examples.two_depths ns = Ok metrics) \/
   (exists x, walk_error x /\
      collect Examples.self (Examples.serving Examples.two_depths)
      = ([], Some x))).
Proof.
  split; [reflexivity|]. split; [reflexivity|].
  apply (fetched_pass_surfaces_errors Examples.self
           (Examples.serving Examples.two_depths) Examples.two_depths);
    reflexivity.
Defined.

Lemma yielded_names_are_listed_witness :
  let fam := mkFamily "dcache_pool_used_bytes" ["dcache_cluster"; "pool"]
               [mkSample "dcache_pool_used_bytes"
                  (<["pool" := Some "pool1"]> {["dcache_cluster" := Some "prod"]})
                  (PyInt 1024)] in
  fam ∈ fst (collect Examples.self (Examples.serving Examples.one_pool)) /\
  exists export field rest,
    export ∈ ExportTags /\
    family_name fam
    = "dcache_" +:+ ExportTag.prefix export +:+ "_" +:+ field /\
    (field = "pool_rel" \/ field ∈ ExportTag.include export) /\
    _labelnames fam = "dcache_cluster" :: ExportTag.prefix export :: rest.
Proof.
  intros fam.
  assert (fam ∈ fst (collect Examples.self (Examples.serving Examples.one_pool)))
    as Hin.
  { apply list_elem_of_In. vm_compute. left. reflexivity. }
  split; [exact Hin|].
  exact (yielded_names_are_listed Examples.self
           (Examples.serving Examples.one_pool) fam Hin).
Defined.

Lemma walk_only_appends_witness :
  let L := Examples.pool1 ++ [("queue_name", Some "q1")] in
  let fam := mkFamily "dcache_pool_active" ["dcache_cluster"; "pool"]
               [mkSample "dcache_pool_active"
                  (<["pool" := Some "pool1"]> {["dcache_cluster" := Some "prod"]})
                  (PyInt 3)] in
  let s := mkState [L] {["dcache_pool_active" := fam]} in
  let s' := mkState [L]
              {["dcache_pool_active" :=
                  add_metric fam (label_values L) (PyInt 5)]} in
  heap s !! 0%nat = Some L /\
  _collect_metric
    (Examples.el "metric" [("name", "active"); ("type", "integer")] (Some "5") [])
    Examples.pools_tag 0 s = Ok (tt, s') /\
  grows (_metrics s) (_metrics s').
Proof.
  intros L fam s s'.
  assert (_collect_metric
            (Examples.el "metric" [("name", "active"); ("type", "integer")]
               (Some "5") [])
            Examples.pools_tag 0 s = Ok (tt, s')) as Hwalk.
  { vm_compute. reflexivity. }
  split; [reflexivity|]. split; [exact Hwalk|].
  exact (walk_only_appends _ Examples.pools_tag 0 L s s' eq_refl Hwalk).
Defined.

Lemma categories_do_not_share_families_witness :
  Examples.pools_tag ∈ ExportTags /\
  Examples.pools_tag = Examples.pools_tag /\ "used_bytes" = "used_bytes".
Proof.
  assert (Examples.pools_tag ∈ ExportTags) as Hin.
  { apply list_elem_of_In. vm_compute. tauto. }
  split; [exact Hin|].
  exact (categories_do_not_share_families Examples.pools_tag Examples.pools_tag
           "used_bytes" "used_bytes" Hin Hin eq_refl).
Defined.

Lemma pass_reads_first_containers_witness :
  let tree' :=
    Examples.el "dCache" [("version", "1")] (Some "text")
      [Examples.el "summary" [] None [Examples.used_bytes];
       Examples.el "pools" [] None
         [Examples.el "pool" [("name", "pool1@qualifier")] None
            [Examples.el "space" [] None [Examples.used_bytes]]];
       Examples.el "pools" [] None
         [Examples.el "pool" [("name", "pool2")] None [Examples.used_bytes]]] in
  tag Examples.one_pool = tag tree' /\
  collect Examples.self (Examples.serving Examples.one_pool)
  = collect Examples.self (Examples.serving tree').
Proof.
  intros tree'. split; [reflexivity|].
  apply (pass_reads_first_containers Examples.self (fun _ _ => Ok tt)
           Examples.one_pool tree'); [reflexivity|].
  intros ns export Hns Hin. vm_compute in Hns. injection Hns as <-.
  unfold ExportTags in Hin.
  repeat (apply elem_of_cons in Hin as [->|Hin]; [vm_compute; reflexivity|]).
  by apply elem_of_nil in Hin.
Defined.

Lemma empty_snapshot_yields_nothing_witness :
  let tree :=
    Examples.el "dCache" [] None
      [Examples.el "summary" [] None [Examples.used_bytes];
       Examples.el "pools" [] (Some " ") []] in
  get_namespace tree = Ok Examples.ns /\
  collect Examples.self (Examples.serving tree) = ([], None).
Proof.
  intros tree. split; [reflexivity|].
  apply (empty_snapshot_yields_nothing Examples.self (Examples.serving tree)
           tree Examples.ns); [reflexivity|reflexivity|reflexivity|].
  intros export container Hin. unfold ExportTags in Hin.
  repeat (apply elem_of_cons in Hin as [->|Hin];
          [vm_compute; intros H; by simplify_eq|]).
  by apply elem_of_nil in Hin.
Defined.

Lemma metric_without_name_raises_witness :
  get_short_tag (Examples.el "metric" [("type", "text")] (Some "up") []) = "metric" /\
  _collect_metric (Examples.el "metric" [("type", "text")] (Some "up") [])
    Examples.pools_tag 0 (mkState [Examples.pool1] ∅)
  = Raise AttributeError.
Proof.
  split; [reflexivity|].
  apply (metric_without_name_raises (Examples.ns +:+ "metric") [("type", "text")]
           (Some "up") [] Examples.pools_tag 0 (mkState [Examples.pool1] ∅));
    reflexivity.
Defined.

Lemma unreadable_value_aborts_walk_witness :
  let s := mkState [Examples.pool1] ∅ in
  ExportTag.collect_metric Examples.pools_tag "enabled" Examples.pool1 = Ok true /\
  ExportTag.collect_metric Examples.pools_tag "active" Examples.pool1 = Ok true /\
  Num.py_int "many" = Raise ValueError /\
  _collect_metric
    (Examples.el "metric" [("name", "enabled"); ("type", "boolean")] None [])
    Examples.pools_tag 0 s = Raise AttributeError /\
  _collect_metric
    (Examples.el "metric" [("name", "active"); ("type", "integer")] (Some "many") [])
    Examples.pools_tag 0 s = Raise ValueError.
Proof.
  intros s. split; [reflexivity|]. split; [reflexivity|]. split; [reflexivity|].
  split.
  - apply (proj1 (unreadable_value_aborts_walk
                    (Examples.ns +:+ "metric")
                    [("name", "enabled"); ("type", "boolean")] None []
                    Examples.pools_tag 0 Examples.pool1 s
                    "enabled" "boolean" "enabled" (fun x => Ok x)
                    eq_refl eq_refl eq_refl eq_refl
                    ltac:(apply list_elem_of_In; vm_compute; tauto)
                    eq_refl eq_refl)).
    reflexivity.
  - apply (proj2 (unreadable_value_aborts_walk
                    (Examples.ns +:+ "metric")
                    [("name", "active"); ("type", "integer")] (Some "many") []
                    Examples.pools_tag 0 Examples.pool1 s
                    "active" "integer" "active" (fun x => Ok x)
                    eq_refl eq_refl eq_refl eq_refl
                    ltac:(apply list_elem_of_In; vm_compute; tauto)
                    eq_refl eq_refl) "many").
    + reflexivity.
    + discriminate.
    + reflexivity.
Defined.

Lemma skipped_node_reads_no_text_witness :
  let s := mkState [Examples.pool1] ∅ in
  let node := Examples.el "metric" [("name", "version"); ("type", "integer")]
                (Some "not a number") [Examples.used_bytes] in
  ExportTag.collect_metric Examples.pools_tag "version" Examples.pool1 = Ok false /\
  _collect_metric node Examples.pools_tag 0 s
  = for_child "metric" [("name", "version"); ("type", "integer")]
      Examples.pools_tag 0 [Examples.used_bytes] s.
Proof.
  intros s node. split; [reflexivity|].
  apply (skipped_node_reads_no_text
           (Examples.ns +:+ "metric") [("name", "version"); ("type", "integer")]
           (Some "not a number") [Examples.used_bytes]
           Examples.pools_tag 0 Examples.pool1 s
           "version" "version" (fun x => Ok x) false);
    try reflexivity.
  by left.
Defined.

Lemma member_without_identity_witness :
  of_table Examples.pools_tag /\
  _collect_metrics_set Examples.self
    (Examples.el "pool" [("id", "7")] None [Examples.used_bytes])
    Examples.pools_tag (mkState [] ∅) = Raise TypeError /\
  exists export',
    ExportTag.collect_init Examples.linkgroups_tag
      (Examples.el "linkgroup" [("name", "lg")] None []) = Ok export' /\
    _collect_metrics_set Examples.self
      (Examples.el "linkgroup" [("name", "lg")] None [])
      Examples.linkgroups_tag (mkState [] ∅)
    = (labels <- new_list [("dcache_cluster", Some "prod"); ("linkgroup", None)] ;;
       for_member_child export' labels [] >> ret export') (mkState [] ∅).
Proof.
  assert (forall export, export ∈ ExportTags -> of_table export) as Htab.
  { intros export Hin. exists export. split; [done|by left]. }
  assert (Examples.pools_tag ∈ ExportTags) as Hpools.
  { apply list_elem_of_In. vm_compute. tauto. }
  assert (Examples.linkgroups_tag ∈ ExportTags) as Hlg.
  { apply list_elem_of_In. vm_compute. tauto. }
  split; [exact (Htab _ Hpools)|]. split.
  - apply (proj1 (member_without_identity Examples.self Examples.pools_tag
                    (Examples.ns +:+ "pool") [("id", "7")] None
                    [Examples.used_bytes] (mkState [] ∅) (Htab _ Hpools))).
    + vm_compute. discriminate.
    + reflexivity.
  - apply (proj2 (member_without_identity Examples.self Examples.linkgroups_tag
                    (Examples.ns +:+ "linkgroup") [("name", "lg")] None []
                    (mkState [] ∅) (Htab _ Hlg))); reflexivity.
Defined.

Lemma transformed_name_has_no_hyphen_witness :
  _metric_transform (Some "used-bytes") = Ok ("used_bytes", fun x => Ok x) /\
  Str.contains "-" "used_bytes" = false.
Proof.
  split; [reflexivity|].
  apply (transformed_name_has_no_hyphen "used-bytes" "used_bytes" (fun x => Ok x)).
  reflexivity.
Defined.

Lemma identity_label_has_no_qualifier_witness :
  let member := Examples.el "pool" [("name", "pool1@qualifier")] None
                  [Examples.used_bytes] in
  get_short_tag member <> "linkgroup" /\
  _collect_metrics_set Examples.self member Examples.pools_tag (mkState [] ∅)
  = (labels <- new_list Examples.pool1 ;;
     for_member_child Examples.pools_tag labels [Examples.used_bytes] >>
     ret Examples.pools_tag) (mkState [] ∅) /\
  Str.contains "@" "pool1" = false /\
  ("pool1@qualifier" = "pool1" \/
   exists qualifier, "pool1@qualifier" = "pool1" +:+ "@" +:+ qualifier).
Proof.
  intros member.
  assert (get_short_tag member <> "linkgroup") as Htag
    by (vm_compute; discriminate).
  split; [exact Htag|].
  exact (identity_label_has_no_qualifier Examples.self Examples.pools_tag
           (Examples.ns +:+ "pool") [("name", "pool1@qualifier")] None
           [Examples.used_bytes] (mkState [] ∅) "pool1@qualifier"
           eq_refl Htag eq_refl).
Defined.

Lemma domain_without_cells_is_silent_witness :
  let member :=
    Examples.el "domain" [("name", "dCacheDomain")] None
      [Examples.el "cells" [] None
         [Examples.el "cell" [("name", "cellA")] None
            [Examples.el "metric" [("name", "thread-count"); ("type", "integer")]
               (Some "4") []]]] in
  Examples.domains_tag ∈ ExportTags /\
  exists export',
    ExportTag.collect_init Examples.domains_tag member = Ok export' /\
    ExportTag.data export' = Some [] /\
    forall field labels,
      ExportTag.collect_metric export' field labels = Ok false.
Proof.
  intros member.
  assert (Examples.domains_tag ∈ ExportTags) as Hin.
  { apply list_elem_of_In. vm_compute. tauto. }
  split; [exact Hin|].
  apply (domain_without_cells_is_silent Examples.domains_tag member Hin eq_refl).
  intros routing route cell Hrouting Htag.
  apply list_elem_of_In in Hrouting. cbn in Hrouting.
  destruct Hrouting as [<-|[]]. vm_compute in Htag. discriminate.
Defined.

Lemma table_filter_after_init_witness :
  Examples.domains_tag ∈ ExportTags /\
  exists export',
    ExportTag.collect_init Examples.domains_tag Examples.domain = Ok export' /\
    ExportTag.name export' = "domains" /\
    ExportTag.prefix export' = "domain" /\
    forall field labels,
      exists b, ExportTag.collect_metric export' field labels = Ok b /\
                (b = true -> field ∈ DOMAIN_METRICS).
Proof.
  assert (Examples.domains_tag ∈ ExportTags) as Hin.
  { apply list_elem_of_In. vm_compute. tauto. }
  split; [exact Hin|].
  exact (table_filter_after_init Examples.domains_tag Examples.domain Hin).
Defined.
